(** * Yelp Top Places API (app.py): shallow embedding and verified properties

    The service proxies one upstream search call, re-ranks the returned
    businesses with a Bayesian average and caches whole responses in a
    [TTLCache].  Python floats are IEEE binary64 values, modelled here by
    Rocq's primitive floats; Python ints are [Z]; exceptions are an explicit
    error monad; the cache and the upstream call log are threaded as state. *)

From Stdlib Require Import ZArith List String Ascii Bool Lia QArith Qabs Floats.
From Stdlib Require Import Permutation Sorted DecimalString.
From stdpp Require Import base list sorting gmap sets strings.
Import ListNotations.

#[local] Set Warnings "-inexact-float".
#[local] Set Warnings "-register-all".
#[local] Open Scope Z_scope.

(* ===================================================================== *)
(** ** Python values: exceptions, floats, strings, lists                   *)
(* ===================================================================== *)

Module Py.

(** Exceptions that leave the modelled functions.  An [HTTPException]
    carries the status and the detail that FastAPI sends to the client. *)
Inductive exn : Type :=
| ZeroDivisionError
| OverflowError
| ValueError
| TypeError
| AttributeError
| ValidationError
| KeyError (key : string)
| HTTPException (status_code : Z) (detail : string).

(** A computation either returns a value or raises. *)
Inductive py (A : Type) : Type :=
| Return (a : A)
| Raise (e : exn).
Arguments Return {A} a.
Arguments Raise {A} e.

#[export] Instance py_ret : MRet py := fun A a => Return a.
#[export] Instance py_bind : MBind py := fun A B k m =>
  match m with
  | Return a => k a
  | Raise e => Raise e
  end.

(** [for x in xs: ys.append(f x)], stopping at the first exception. *)
Fixpoint for_each {A B : Type} (f : A -> py B) (xs : list A) : py (list B) :=
  match xs with
  | [] => Return []
  | x :: xs' =>
      y ← f x;
      ys ← for_each f xs';
      Return (y :: ys)
  end.

(** *** Floats *)

Definition sf_of_Z (z : Z) : spec_float :=
  match z with
  | Z0 => S754_zero false
  | Zpos p => S754_finite false p 0
  | Zneg p => S754_finite true p 0
  end.

(** The binary64 value nearest to the rational [a / b] (ties to even),
    computed from the exact integers: one rounding, as CPython's
    [long_true_divide] does. *)
Definition nearest_quot (a b : Z) : float :=
  SF2Prim (SFdiv prec emax (sf_of_Z a) (sf_of_Z b)).

(** A quotient of this magnitude or more rounds to 2^1024 and beyond. *)
Definition overflow_threshold : Z := 2 ^ 1024 - 2 ^ 970.

(** [a / b] on Python ints (true division). *)
Definition truediv (a b : Z) : py float :=
  if b =? 0 then Raise ZeroDivisionError
  else if overflow_threshold * Z.abs b <=? Z.abs a then Raise OverflowError
  else Return (nearest_quot a b).

(** [float(n)] for an int that true division cannot overflow on. *)
Definition float_of_int (n : Z) : float := nearest_quot n 1.

Definition is_finite (x : float) : bool :=
  match Prim2SF x with
  | S754_zero _ | S754_finite _ _ _ => true
  | _ => false
  end.

Definition is_nan (x : float) : bool :=
  match Prim2SF x with
  | S754_nan => true
  | _ => false
  end.

(** The exact rational value of a finite float. *)
Definition to_Q (x : float) : option Q :=
  match Prim2SF x with
  | S754_zero _ => Some 0%Q
  | S754_finite s m e => Some (inject_Z (cond_Zopp s (Zpos m)) * 2 ^ e)%Q
  | _ => None
  end.

(** Nearest integer to [n / d] for [0 <= n], [0 < d], ties to even. *)
Definition round_half_even_div (n d : Z) : Z :=
  let q := n / d in
  match 2 * (n mod d) ?= d with
  | Lt => q
  | Gt => q + 1
  | Eq => if Z.even q then q else q + 1
  end.

(** [round(x, 2)]: the exact value of [x] is rounded to two decimals
    (ties to even), and the decimal is read back as the nearest float;
    the sign of [x] is kept; nan, infinities and integers are unchanged. *)
Definition round2 (x : float) : float :=
  match Prim2SF x with
  | S754_finite s m e =>
      if 0 <=? e then x
      else
        let k := round_half_even_div (100 * Zpos m) (2 ^ (- e)) in
        let r := nearest_quot k 100 in
        if s then (- r)%float else r
  | _ => x
  end.

(** [int(x)] on a float: truncation toward zero. *)
Definition int_of_float (x : float) : py Z :=
  match Prim2SF x with
  | S754_nan => Raise ValueError
  | S754_infinity _ => Raise OverflowError
  | S754_zero _ => Return 0
  | S754_finite s m e =>
      Return (cond_Zopp s (if 0 <=? e then Zpos m * 2 ^ e else Zpos m / 2 ^ (- e)))
  end.

(** *** Text

    A [str] is a [string], one [ascii] for each of its characters. *)

(** [str(n)] on an int. *)
Definition str_of_int (n : Z) : string := NilZero.string_of_int (Z.to_int n).

(** [str(b)] on a bool. *)
Definition str_of_bool (b : bool) : string := if b then "True" else "False".

Definition zeros (n : Z) : string :=
  string_of_list_ascii (repeat "0"%char (Z.to_nat n)).

(** Is [10^p <= n/d]?  ([0 < n], [0 < d].) *)
Definition le_pow10 (p n d : Z) : bool :=
  if 0 <=? p then 10 ^ p * d <=? n else d <=? n * 10 ^ (- p).

(** The largest [p] at or below the start with [10^p <= n/d]. *)
Fixpoint log10_floor (fuel : nat) (p n d : Z) : Z :=
  match fuel with
  | O => p
  | S fuel' => if le_pow10 p n d then p else log10_floor fuel' (p - 1) n d
  end.

(** A [p] with [n/d < 10^(p+1)], at most three above the largest with
    [10^p <= n/d]: from the bit lengths, as [log10 2 < 0.30103]. *)
Definition log10_upper (n d : Z) : Z :=
  (Z.log2 n - Z.log2 d + 1) * 30103 / 100000 + 1.

(** Does the decimal [c * 10^k] read back as the float [x]? *)
Definition reads_back (x : float) (c k : Z) : bool :=
  PrimFloat.eqb (nearest_quot (c * 10 ^ Z.max k 0) (10 ^ Z.max (- k) 0)) x.

(** The decimal with [ndig] significant digits nearest to [n/d] among those
    that read back as [x], as mantissa and exponent, if there is one.  When
    the two decimals around [n/d] both read back and are equally near, the
    one with the even last digit is taken. *)
Definition decimal_candidate (x : float) (n d p ndig : Z) : option (Z * Z) :=
  let k := p - (ndig - 1) in
  let lo := if 0 <=? k then n / (d * 10 ^ k) else (n * 10 ^ (- k)) / d in
  let hi := lo + 1 in
  let twice_middle :=
    if 0 <=? k then (2 * lo + 1) * 10 ^ k * d else (2 * lo + 1) * d in
  let twice_value := if 0 <=? k then 2 * n else 2 * n * 10 ^ (- k) in
  let nearest :=
    match twice_middle ?= twice_value with
    | Lt => hi
    | Gt => lo
    | Eq => if Z.even lo then lo else hi
    end in
  match reads_back x lo k, reads_back x hi k with
  | true, true => Some (nearest, k)
  | true, false => Some (lo, k)
  | false, true => Some (hi, k)
  | false, false => None
  end.

(** The shortest such decimal: 17 digits always suffice for binary64. *)
Fixpoint shortest_decimal (fuel : nat) (x : float) (n d p ndig : Z) : Z * Z :=
  match fuel with
  | O => (n / d, 0)
  | S fuel' =>
      match decimal_candidate x n d p ndig with
      | Some ck => ck
      | None => shortest_decimal fuel' x n d p (ndig + 1)
      end
  end.

Fixpoint strip_zeros (fuel : nat) (c k : Z) : Z * Z :=
  match fuel with
  | O => (c, k)
  | S fuel' => if (c mod 10 =? 0) && negb (c =? 0) then strip_zeros fuel' (c / 10) (k + 1) else (c, k)
  end.

(** Layout of the digits [0.d1d2... * 10^decpt] the way [repr] prints them:
    exponent form below 1e-4 and from 1e16 on, a fraction part always. *)
Definition format_repr (digits : string) (decpt : Z) : string :=
  let n := Z.of_nat (String.length digits) in
  if (decpt <=? -4) || (16 <? decpt) then
    let e := decpt - 1 in
    let mant :=
      match digits with
      | String c EmptyString => digits
      | String c rest => String c ("." +:+ rest)
      | EmptyString => digits
      end in
    let sign : string := if e <? 0 then "-" else "+" in
    let pad : string := if Z.abs e <? 10 then "0" else "" in
    mant +:+ "e" +:+ sign +:+ pad +:+ str_of_int (Z.abs e)
  else if decpt <=? 0 then "0." +:+ zeros (- decpt) +:+ digits
  else if decpt <? n then
    substring 0 (Z.to_nat decpt) digits +:+ "."
      +:+ substring (Z.to_nat decpt) (Z.to_nat (n - decpt)) digits
  else digits +:+ zeros (decpt - n) +:+ ".0".

(** [str(x)] / [repr(x)] / [f"{x}"] on a float: the shortest decimal that
    reads back as [x]. *)
Definition str_of_float (x : float) : string :=
  match Prim2SF x with
  | S754_nan => "nan"
  | S754_infinity s => if s then "-inf" else "inf"
  | S754_zero s => if s then "-0.0" else "0.0"
  | S754_finite s m e =>
      let n := Zpos m * 2 ^ Z.max e 0 in
      let d := 2 ^ Z.max (- e) 0 in
      let p := log10_floor 8 (log10_upper n d) n d in
      let '(c, k) := shortest_decimal 17 (abs x) n d p 1 in
      let '(c, k) := strip_zeros 20 c k in
      let digits := str_of_int c in
      let sign : string := if s then "-" else "" in
      sign +:+ format_repr digits (Z.of_nat (String.length digits) + k)
  end.

(** [s.replace(c, "")] for a one-character [c]. *)
Fixpoint str_remove (c : ascii) (s : string) : string :=
  match s with
  | EmptyString => EmptyString
  | String a s' =>
      if Ascii.eqb a c then str_remove c s' else String a (str_remove c s')
  end.

(** [s.split(sep)] for a one-character separator: never empty, one more
    part than there are separators. *)
Fixpoint str_split (sep : ascii) (s : string) : list string :=
  match s with
  | EmptyString => [EmptyString]
  | String a s' =>
      if Ascii.eqb a sep then EmptyString :: str_split sep s'
      else
        match str_split sep s' with
        | part :: parts => String a part :: parts
        | [] => [String a EmptyString]
        end
  end.

(** [sep.join(parts)]. *)
Definition str_join (sep : string) (parts : list string) : string :=
  String.concat sep parts.

(** [s[:n]] on text, for [0 <= n]. *)
Definition str_prefix (n : nat) (s : string) : string := substring 0 n s.

(** *** JSON values

    What [response.json()] can hold.  A dict is the list of its items, in
    their order. *)
Inductive Json : Type :=
| JNull
| JBool (b : bool)
| JInt (n : Z)
| JFloat (x : float)
| JStr (s : string)
| JList (items : list Json)
| JDict (entries : list (string * Json)).

(** [d.get(key)] *)
Fixpoint dict_get (entries : list (string * Json)) (key : string) : option Json :=
  match entries with
  | [] => None
  | (k, v) :: rest => if String.eqb k key then Some v else dict_get rest key
  end.

(** The values that arithmetic takes: ints, [True] and [False] among them
    as 1 and 0, and floats. *)
Inductive Number : Type :=
| NInt (n : Z)
| NFloat (x : float).

Definition as_number (v : Json) : option Number :=
  match v with
  | JBool b => Some (NInt (if b then 1 else 0))
  | JInt n => Some (NInt n)
  | JFloat x => Some (NFloat x)
  | _ => None
  end.

(** [float(n)] on any int, as arithmetic with a float converts it. *)
Definition float_of_int_checked (n : Z) : py float :=
  if overflow_threshold <=? Z.abs n then Raise OverflowError
  else Return (float_of_int n).

(** [int(v)]; [int_of_str] is [int] on text, [None] for a [ValueError]. *)
Definition int_of_json (int_of_str : string -> option Z) (v : Json) : py Z :=
  match v with
  | JBool b => Return (if b then 1 else 0)
  | JInt n => Return n
  | JFloat x => int_of_float x
  | JStr s =>
      match int_of_str s with
      | Some n => Return n
      | None => Raise ValueError
      end
  | JNull | JList _ | JDict _ => Raise TypeError
  end.

(** The items, when each of them is a [str]. *)
Fixpoint all_str (items : list Json) : option (list string) :=
  match items with
  | [] => Some []
  | JStr s :: rest => cons s <$> all_str rest
  | _ :: _ => None
  end.

(** [sep.join(v)]: a list is joined when its items are text, a [str] is
    taken character by character and a dict key by key. *)
Definition join_json (sep : string) (v : Json) : py string :=
  match v with
  | JList items =>
      match all_str items with
      | Some parts => Return (str_join sep parts)
      | None => Raise TypeError
      end
  | JStr s =>
      Return (str_join sep (map (fun c => String c EmptyString)
                                (list_ascii_of_string s)))
  | JDict entries => Return (str_join sep (map fst entries))
  | JNull | JBool _ | JInt _ | JFloat _ => Raise TypeError
  end.

(** *** Lists *)

(** [l[:n]]: a negative [n] counts from the end. *)
Definition slice_to {A : Type} (l : list A) (n : Z) : list A :=
  if 0 <=? n then firstn (Z.to_nat n) l
  else firstn (length l - Z.to_nat (- n)) l.

Section Sort.
Context {A : Type} (key : A -> float).

(** Insertion before the first element whose key is not below the new
    one; only [<] on keys is used, as by [list.sort]. *)
Fixpoint insert_sorted (x : A) (l : list A) : list A :=
  match l with
  | [] => [x]
  | y :: l' =>
      if PrimFloat.ltb (key y) (key x) then y :: insert_sorted x l'
      else x :: y :: l'
  end.

(** A stable ascending sort. *)
Definition sort_stable (l : list A) : list A :=
  fold_right insert_sorted [] l.

(** [l.sort(key=key, reverse=True)] on keys that [<] orders, that is with
    no nan among them: the list is reversed, sorted ascending and stably,
    and reversed again.  A stable sort of such keys has one result, whatever
    comparisons are made to reach it.  With a nan key the result of
    [list.sort] depends on which comparisons its implementation makes; that
    is not modelled, and the statements on the order assume [no_nan]. *)
Definition sort_reverse (l : list A) : list A :=
  rev (sort_stable (rev l)).
End Sort.

End Py.

(* ===================================================================== *)
(** ** cachetools.TTLCache                                                 *)
(* ===================================================================== *)

(** The cache object of app.py is a [cachetools.TTLCache]; this is the part
    of its behaviour that the handler uses.  The links are kept in the order
    of the cache's [OrderedDict]: least recently used first.  Every
    operation reads the timer once; the reading is an explicit argument.  A
    link is fresh while [timer() < expires].  [expire] drops every stale
    link: with a monotonic timer and one [ttl] these are the links that the
    library unlinks from the head of its expiry list. *)
Module Cachetools.
Import Py.

Section TTLCache.
Context {V : Type}.

Record link : Type := Link { key : string; value : V; expires : float }.

Definition fresh (now : float) (l : link) : bool :=
  PrimFloat.ltb now (expires l).

Definition getlink (k : string) (links : list link) : option link :=
  List.find (fun l => String.eqb (key l) k) links.

Definition without (k : string) (links : list link) : list link :=
  List.filter (fun l => negb (String.eqb (key l) k)) links.

Definition move_to_end (k : string) (links : list link) : list link :=
  match getlink k links with
  | Some l => without k links ++ [l]
  | None => links
  end.

(** [k in cache] *)
Definition contains (now : float) (k : string) (links : list link) : bool :=
  match getlink k links with
  | Some l => fresh now l
  | None => false
  end.

(** [cache[k]] *)
Definition getitem (now : float) (k : string) (links : list link)
  : py V * list link :=
  match getlink k links with
  | Some l =>
      (if fresh now l then Return (value l) else Raise (KeyError k),
       move_to_end k links)
  | None => (Raise (KeyError k), links)
  end.

Definition expire (now : float) (links : list link) : list link :=
  List.filter (fresh now) links.

(** [cache[k] = v]: stale links go first, then, for a new key, least
    recently used links until one more fits; the key ends up last, with
    expiry [now + ttl]. *)
Definition setitem (maxsize : Z) (ttl : float) (now : float)
    (k : string) (v : V) (links : list link) : py unit * list link :=
  let links1 := expire now links in
  if maxsize <? 1 then (Raise ValueError, links1)
  else
    let links2 :=
      match getlink k links1 with
      | Some _ => without k links1
      | None => skipn (Z.to_nat (Z.of_nat (length links1) + 1 - maxsize)) links1
      end in
    (Return tt, links2 ++ [Link k v (now + ttl)%float]).
(** [len(cache)]: stale links go first, the rest are counted. *)
Definition len (now : float) (links : list link) : Z * list link :=
  let links1 := expire now links in
  (Z.of_nat (length links1), links1).
End TTLCache.

Arguments link V : clear implicits.

End Cachetools.

(* ===================================================================== *)
(** ** app.py                                                              *)
(* ===================================================================== *)

Module App.
Import Py.

(** *** Configuration *)

Definition PRIOR_RATING : float := 3.8.
Definition DAMPING_FACTOR : Z := 150.

(** [cache = TTLCache(maxsize=500, ttl=600)] *)
Definition CACHE_MAXSIZE : Z := 500.
Definition CACHE_TTL : float := 600.

(** *** Models *)

Record BusinessResult : Type := {
  name : string;
  rating : float;
  review_count : Z;
  score : float;
  price : option string;
  distance_m : Z;
  address : string;
  url : string;
  yelp_id : string
}.

Record Center : Type := {
  center_lat : float;
  center_lng : float;
  center_radius_m : Z
}.

Record TopPlacesResponse : Type := {
  resp_term : string;
  center : Center;
  count : Z;
  results : list BusinessResult;
  attribution : string
}.

Definition ATTRIBUTION : string := "Results powered by Yelp".

(** *** Bayesian score *)

(** [score = (v/(v+m)) * R + (m/(v+m)) * C] *)
Definition calculate_bayesian_score (rating : float) (review_count : Z) : py float :=
  let v := review_count in
  let m := DAMPING_FACTOR in
  let R := rating in
  let C := PRIOR_RATING in
  wR ← truediv v (v + m);
  wC ← truediv m (v + m);
  mret (wR * R + wC * C)%float.

(** *** Yelp API client *)

(** The query parameters of the outbound GET. *)
Record YelpParams : Type := {
  p_term : string;
  p_latitude : float;
  p_longitude : float;
  p_radius : Z;
  p_limit : Z;
  p_open_now : option bool;
  p_price : option string
}.

(** An upstream business: a JSON object, any of whose entries may be
    missing, and whose entries have the types that [BusinessResult]
    declares for them.  [business_of_json] reads such a record off a JSON
    value, and [score_business_json] is the loop body on any JSON value. *)
Record Location : Type := { display_address : option (list string) }.

Record Business : Type := {
  b_rating : option float;
  b_review_count : option Z;
  b_name : option string;
  b_price : option string;
  b_distance : option float;
  b_location : option Location;
  b_url : option string;
  b_id : option string
}.

(** What [response.json()] gives: a JSON object with or without a
    ["businesses"] entry, that entry a list of records of the declared
    types, or a decoding error, which [requests] raises as a
    [RequestException]. *)
Inductive JsonBody : Type :=
| JsonObject (businesses : option (list Business))
| JsonInvalid (msg : string).

Record Response : Type := {
  status_code : Z;
  text : string;
  json : JsonBody
}.

(** What [requests.get] does: it returns a response, raises a
    [requests.Timeout], or raises another [requests.RequestException]. *)
Inductive GetOutcome : Type :=
| Responded (response : Response)
| TimedOut (msg : string)
| Failed (msg : string).

Definition truthy (s : option string) : bool :=
  match s with
  | Some (String _ _) => true
  | _ => false
  end.

Definition yelp_params (term : string) (latitude longitude : float)
    (radius_m limit : Z) (open_now : bool) (price : option string) : YelpParams :=
  {| p_term := term;
     p_latitude := latitude;
     p_longitude := longitude;
     p_radius := Z.min radius_m 40000;
     p_limit := Z.min (limit * 5) 50;
     p_open_now := if open_now then Some true else None;
     p_price := if truthy price then str_remove " " <$> price else None |}.

(** [search_yelp]: the calls issued, and the businesses or the exception. *)
Definition search_yelp (get : YelpParams -> GetOutcome)
    (term : string) (latitude longitude : float) (radius_m limit : Z)
    (open_now : bool) (price : option string)
  : list YelpParams * py (list Business) :=
  let params := yelp_params term latitude longitude radius_m limit open_now price in
  ([params],
   match get params with
   | Responded response =>
       if status_code response =? 429 then
         Raise (HTTPException 429
                  "Yelp API rate limit exceeded. Please retry in a moment.")
       else if negb (status_code response =? 200) then
         Raise (HTTPException 502
                  ("Yelp API error: " +:+ str_of_int (status_code response)
                     +:+ " - " +:+ str_prefix 200 (text response)))
       else
         match json response with
         | JsonObject (Some businesses) => Return businesses
         | JsonObject None => Return []
         | JsonInvalid msg =>
             Raise (HTTPException 502 ("Yelp API request failed: " +:+ msg))
         end
   | TimedOut _ => Raise (HTTPException 504 "Yelp API request timeout")
   | Failed msg => Raise (HTTPException 502 ("Yelp API request failed: " +:+ msg))
   end).

(** *** Main endpoint *)

(** The arguments of [get_top_places], as FastAPI passes them. *)
Record Query : Type := {
  term : string;
  lat : float;
  lng : float;
  radius_m : Z;
  limit : Z;
  open_now : bool;
  q_price : option string
}.

Definition valid_prices : gset string := {[ "1"; "2"; "3"; "4" ]}.

Definition price_parts (price : string) : gset string :=
  list_to_set (str_split "," (str_remove " " price)).

(** The guard of lines 170-177: [true] when the request goes on. *)
Definition price_accepted (price : option string) : bool :=
  match price with
  | Some (String _ _ as p) => bool_decide (price_parts p ⊆ valid_prices)
  | _ => true
  end.

Definition INVALID_PRICE : exn :=
  HTTPException 400 "Invalid price format. Use comma-separated values: 1,2,3,4".

(** [price or ''] *)
Definition price_or_empty (price : option string) : string :=
  if truthy price then default "" price else "".

(** [f"{term}|{lat}|{lng}|{radius_m}|{open_now}|{price or ''}"] *)
Definition cache_key (q : Query) : string :=
  term q +:+ "|" +:+ str_of_float (lat q) +:+ "|" +:+ str_of_float (lng q)
    +:+ "|" +:+ str_of_int (radius_m q) +:+ "|" +:+ str_of_bool (open_now q)
    +:+ "|" +:+ price_or_empty (q_price q).

(** [biz.get("rating", 0)] and [biz.get("review_count", 0)] *)
Definition rating_of (biz : Business) : float :=
  default (float_of_int 0) (b_rating biz).

Definition review_count_of (biz : Business) : Z :=
  default 0 (b_review_count biz).

(** The body of the loop over the businesses. *)
Definition score_business (biz : Business) : py BusinessResult :=
  let rating := rating_of biz in
  let review_count := review_count_of biz in
  score ← calculate_bayesian_score rating review_count;
  let location := default {| display_address := None |} (b_location biz) in
  let address := str_join ", " (default [] (display_address location)) in
  distance ← match b_distance biz with
             | Some d => int_of_float d
             | None => Return 0
             end;
  mret {| name := default "Unknown" (b_name biz);
          rating := rating;
          review_count := review_count;
          score := round2 score;
          price := b_price biz;
          distance_m := distance;
          address := address;
          url := default "" (b_url biz);
          yelp_id := default "" (b_id biz) |}.

(** *** The loop body on JSON as received *)

(** The arguments of [BusinessResult(...)], evaluated. *)
Record BusinessResultArgs : Type := {
  arg_name : Json;
  arg_rating : Json;
  arg_review_count : Json;
  arg_score : float;
  arg_price : Json;
  arg_distance_m : Z;
  arg_address : string;
  arg_url : Json;
  arg_yelp_id : Json
}.

(** The formula of [calculate_bayesian_score] on a float count. *)
Definition calculate_bayesian_score_float (rating review_count : float) : py float :=
  let v := review_count in
  let m := float_of_int DAMPING_FACTOR in
  let R := rating in
  let C := PRIOR_RATING in
  let d := (v + m)%float in
  if PrimFloat.eqb d 0 then Raise ZeroDivisionError
  else Return ((v / d) * R + (m / d) * C)%float.

(** [calculate_bayesian_score] on whatever the record holds: [v + m] needs
    a number, [v / (v + m)] a divisor that is not zero, and the product with
    [R] a number again, an int being converted to a float. *)
Definition calculate_bayesian_score_json (rating review_count : Json) : py float :=
  match as_number review_count with
  | None => Raise TypeError
  | Some (NInt v) =>
      _ ← truediv v (v + DAMPING_FACTOR);
      match as_number rating with
      | None => Raise TypeError
      | Some (NInt R) =>
          R' ← float_of_int_checked R;
          calculate_bayesian_score R' v
      | Some (NFloat R) => calculate_bayesian_score R v
      end
  | Some (NFloat v) =>
      if PrimFloat.eqb (v + float_of_int DAMPING_FACTOR) 0
      then Raise ZeroDivisionError
      else
      match as_number rating with
      | None => Raise TypeError
      | Some (NInt R) =>
          R' ← float_of_int_checked R;
          calculate_bayesian_score_float R' v
      | Some (NFloat R) => calculate_bayesian_score_float R v
      end
  end.

(** A value of the declared type of a field, as validation keeps it: text
    for [str], an int for [int], a float for [float], or an int that a float
    holds exactly, which becomes that float; null or text for
    [Optional[str]]. *)
Definition declared_str (v : Json) : option string :=
  match v with
  | JStr s => Some s
  | _ => None
  end.

Definition declared_int (v : Json) : option Z :=
  match v with
  | JInt n => Some n
  | _ => None
  end.

Definition declared_float (v : Json) : option float :=
  match v with
  | JFloat x => Some x
  | JInt n => if Z.abs n <=? 2 ^ 53 then Some (float_of_int n) else None
  | _ => None
  end.

Definition declared_optional_str (v : Json) : option (option string) :=
  match v with
  | JNull => Some None
  | JStr s => Some (Some s)
  | _ => None
  end.

(** [BusinessResult(...)] on arguments of the declared types.  [None]
    where pydantic has to convert or to refuse, which is left to the
    constructor. *)
Definition validated (a : BusinessResultArgs) : option BusinessResult :=
  n ← declared_str (arg_name a);
  R ← declared_float (arg_rating a);
  v ← declared_int (arg_review_count a);
  p ← declared_optional_str (arg_price a);
  u ← declared_str (arg_url a);
  i ← declared_str (arg_yelp_id a);
  Some {| name := n;
          rating := R;
          review_count := v;
          score := arg_score a;
          price := p;
          distance_m := arg_distance_m a;
          address := arg_address a;
          url := u;
          yelp_id := i |}.

Section LoopBody.
(** [int] on text, and the constructor of [BusinessResult], which pydantic
    generates. *)
Context (int_of_str : string -> option Z).
Context (BusinessResult_init : BusinessResultArgs -> py BusinessResult).

(** Lines 200-217: the arguments of the constructor, or the exception that
    evaluating them raises. *)
Definition constructor_args (biz : Json) : py BusinessResultArgs :=
  match biz with
  | JDict biz =>
      let rating := default (JInt 0) (dict_get biz "rating") in
      let review_count := default (JInt 0) (dict_get biz "review_count") in
      score ← calculate_bayesian_score_json rating review_count;
      match default (JDict []) (dict_get biz "location") with
      | JDict location =>
          address ← join_json ", " (default (JList [])
                                      (dict_get location "display_address"));
          distance ← int_of_json int_of_str (default (JInt 0) (dict_get biz "distance"));
          mret {| arg_name := default (JStr "Unknown") (dict_get biz "name");
                  arg_rating := rating;
                  arg_review_count := review_count;
                  arg_score := round2 score;
                  arg_price := default JNull (dict_get biz "price");
                  arg_distance_m := distance;
                  arg_address := address;
                  arg_url := default (JStr "") (dict_get biz "url");
                  arg_yelp_id := default (JStr "") (dict_get biz "id") |}
      | _ => Raise AttributeError
      end
  | _ => Raise AttributeError
  end.

(** The body of the loop over the businesses, on any JSON value. *)
Definition score_business_json (biz : Json) : py BusinessResult :=
  args ← constructor_args biz;
  BusinessResult_init args.
End LoopBody.

(** The entries of a record of the declared types. *)
Definition float_entry (v : option Json) : option (option float) :=
  match v with
  | None => Some None
  | Some (JFloat x) => Some (Some x)
  | Some _ => None
  end.

Definition int_entry (v : option Json) : option (option Z) :=
  match v with
  | None => Some None
  | Some (JInt n) => Some (Some n)
  | Some _ => None
  end.

Definition str_entry (v : option Json) : option (option string) :=
  match v with
  | None => Some None
  | Some (JStr s) => Some (Some s)
  | Some _ => None
  end.

Definition price_entry (v : option Json) : option (option string) :=
  match v with
  | None | Some JNull => Some None
  | Some (JStr s) => Some (Some s)
  | Some _ => None
  end.

Definition location_entry (v : option Json) : option (option Location) :=
  match v with
  | None => Some None
  | Some (JDict location) =>
      match dict_get location "display_address" with
      | None => Some (Some {| display_address := None |})
      | Some (JList items) =>
          (fun parts => Some {| display_address := Some parts |}) <$> all_str items
      | Some _ => None
      end
  | Some _ => None
  end.

(** The typed record of a JSON object whose entries, where present, are of
    the declared types; [None] for any other JSON value. *)
Definition business_of_json (biz : Json) : option Business :=
  match biz with
  | JDict biz =>
      r ← float_entry (dict_get biz "rating");
      v ← int_entry (dict_get biz "review_count");
      n ← str_entry (dict_get biz "name");
      p ← price_entry (dict_get biz "price");
      d ← float_entry (dict_get biz "distance");
      l ← location_entry (dict_get biz "location");
      u ← str_entry (dict_get biz "url");
      i ← str_entry (dict_get biz "id");
      Some {| b_rating := r; b_review_count := v; b_name := n; b_price := p;
              b_distance := d; b_location := l; b_url := u; b_id := i |}
  | _ => None
  end.

Definition build_response (q : Query) (scored_results : list BusinessResult)
  : TopPlacesResponse :=
  let sorted := sort_reverse score scored_results in
  let final_results := slice_to sorted (limit q) in
  {| resp_term := term q;
     center := {| center_lat := lat q; center_lng := lng q;
                  center_radius_m := radius_m q |};
     count := Z.of_nat (length final_results);
     results := final_results;
     attribution := ATTRIBUTION |}.

(** What one request reads from outside: the timer at each of the three
    cache operations, and the upstream's answer to a call. *)
Record Env : Type := {
  now_contains : float;
  now_getitem : float;
  now_setitem : float;
  requests_get : YelpParams -> GetOutcome
}.

Abbreviation Cache := (list (Cachetools.link TopPlacesResponse)).

(** What one request does: its result, the cache it leaves, and the
    upstream calls it issued. *)
Record Outcome : Type := {
  result : py TopPlacesResponse;
  cache_after : Cache;
  upstream_calls : list YelpParams
}.

Definition get_top_places (env : Env) (cache : Cache) (q : Query) : Outcome :=
  if negb (price_accepted (q_price q)) then
    {| result := Raise INVALID_PRICE; cache_after := cache; upstream_calls := [] |}
  else
    let k := cache_key q in
    if Cachetools.contains (now_contains env) k cache then
      let '(r, cache') := Cachetools.getitem (now_getitem env) k cache in
      {| result := r; cache_after := cache'; upstream_calls := [] |}
    else
      let '(calls, fetched) :=
        search_yelp (requests_get env) (term q) (lat q) (lng q) (radius_m q)
                    (limit q) (open_now q) (q_price q) in
      match fetched ≫= for_each score_business with
      | Raise e => {| result := Raise e; cache_after := cache; upstream_calls := calls |}
      | Return scored_results =>
          let response := build_response q scored_results in
          let '(stored, cache') :=
            Cachetools.setitem CACHE_MAXSIZE CACHE_TTL (now_setitem env) k response cache in
          {| result := stored ≫= (fun _ => Return response);
             cache_after := cache';
             upstream_calls := calls |}
      end.

(** *** The route declaration *)

(** The query string after parsing, before the checks that the signature of
    [get_top_places] declares: [None] is an absent parameter. *)
Record RawQuery : Type := {
  raw_term : option string;
  raw_lat : option float;
  raw_lng : option float;
  raw_radius_m : option Z;
  raw_limit : option Z;
  raw_open_now : option bool;
  raw_price : option string
}.

Definition float_between (lo hi x : float) : bool :=
  PrimFloat.leb lo x && PrimFloat.leb x hi.

Definition int_between (lo hi x : Z) : bool := (lo <=? x) && (x <=? hi).

(** [Query(...)] is a required parameter, [Query(d)] one with default [d];
    [ge] and [le] bound it.  [None] when FastAPI refuses the request. *)
Definition validate (raw : RawQuery) : option Query :=
  t ← raw_term raw;
  la ← raw_lat raw;
  ln ← raw_lng raw;
  let r := default 5000 (raw_radius_m raw) in
  let l := default 10 (raw_limit raw) in
  if float_between (-90) 90 la && float_between (-180) 180 ln
     && int_between 100 40000 r && int_between 1 50 l
  then Some {| term := t; lat := la; lng := ln; radius_m := r; limit := l;
               open_now := default false (raw_open_now raw);
               q_price := raw_price raw |}
  else None.

(** What the client receives. *)
Inductive HttpReply : Type :=
| Reply200 (body : TopPlacesResponse)
| ReplyError (status : Z) (detail : string).

Definition reply_of (r : py TopPlacesResponse) : HttpReply :=
  match r with
  | Return body => Reply200 body
  | Raise (HTTPException status detail) => ReplyError status detail
  | Raise _ => ReplyError 500 "Internal Server Error"
  end.

(** [GET /top]: FastAPI checks the declared parameters (422 on failure),
    calls the handler and turns what it returns or raises into a reply.  The
    list of validation errors in the body of a 422 is left out: the detail
    is the status phrase. *)
Definition top (env : Env) (cache : Cache) (raw : RawQuery)
  : HttpReply * Cache * list YelpParams :=
  match validate raw with
  | None => (ReplyError 422 "Unprocessable Entity", cache, [])
  | Some q =>
      let o := get_top_places env cache q in
      (reply_of (result o), cache_after o, upstream_calls o)
  end.

(** *** Health check *)

Record Health : Type := {
  health_status : string;
  health_service : string;
  cache_size : Z
}.

(** [GET /health]: [len(cache)] reads the timer once. *)
Definition health_check (now : float) (cache : Cache) : Health * Cache :=
  let '(n, cache') := Cachetools.len now cache in
  ({| health_status := "healthy";
      health_service := "yelp-top-places-api";
      cache_size := n |}, cache').

End App.

(* ===================================================================== *)
(** ** console.py                                                          *)
(* ===================================================================== *)

(** The interactive console reads lines, builds the parameters of one
    [GET /top] and prints the reply.  The lines typed are arguments here;
    what is printed is left out. *)
Module Console.
Import Py App.

(** Whitespace, as [str.strip] and [str.isspace] see it. *)
Definition is_space (c : ascii) : bool :=
  let n := N_of_ascii c in
  ((9 <=? n) && (n <=? 13) || (28 <=? n) && (n <=? 32)
   || (n =? 133) || (n =? 160))%N.

Fixpoint lstrip (s : string) : string :=
  match s with
  | String c s' => if is_space c then lstrip s' else s
  | EmptyString => EmptyString
  end.

Definition str_rev (s : string) : string :=
  string_of_list_ascii (rev (list_ascii_of_string s)).

(** [s.strip()] *)
Definition strip (s : string) : string := str_rev (lstrip (str_rev (lstrip s))).

(** [c.lower()]: the capital letters, plain and accented, move up by 32. *)
Definition lower_char (c : ascii) : ascii :=
  let n := N_of_ascii c in
  if ((65 <=? n) && (n <=? 90)
      || (192 <=? n) && (n <=? 222) && negb (n =? 215))%N
  then ascii_of_N (n + 32) else c.

(** [s.lower()] *)
Fixpoint lower (s : string) : string :=
  match s with
  | String c s' => String (lower_char c) (lower s')
  | EmptyString => EmptyString
  end.

(** [get_input(prompt, default, type_func)] on the line typed.  [type_func]
    is given by what it makes of text, [None] for a [ValueError]; the
    default is a value of the type it produces, on which [str], [float] and
    [int] change nothing; [truthy] is the truth value of such a value. *)
Definition get_input {A : Type} (line : string) (default : option A)
    (type_func : string -> option A) (truthy : A -> bool) : option A :=
  let value := strip line in
  match value, default with
  | EmptyString, Some d => Some d
  | EmptyString, None => None
  | _, _ =>
      match type_func value with
      | Some a => Some a
      | None =>
          match default with
          | Some d => if truthy d then Some d else None
          | None => None
          end
      end
  end.

Definition str_truthy (s : string) : bool :=
  match s with
  | EmptyString => false
  | String _ _ => true
  end.

(** [get_input(prompt, default)] with [type_func=str]. *)
Definition get_text (line : string) (default : option string) : option string :=
  get_input line default Some str_truthy.

(** [open_now_input.lower() in ['y', 'yes', 'true', '1']] *)
Definition parse_open_now (answer : string) : bool :=
  bool_decide (lower answer ∈ ["y"; "yes"; "true"; "1"]).

(** The seven lines that [search_places] reads, in order. *)
Record Lines : Type := {
  line_term : string;
  line_lat : string;
  line_lng : string;
  line_radius : string;
  line_limit : string;
  line_open_now : string;
  line_price : string
}.

(** The [params] dict of [search_places]; [None] in a numeric entry is the
    [None] that [get_input] may return, [None] in [params_price] is a
    missing key. *)
Record Params : Type := {
  params_term : string;
  params_lat : option float;
  params_lng : option float;
  params_radius_m : option Z;
  params_limit : option Z;
  params_open_now : bool;
  params_price : option string
}.

Definition float_truthy (x : float) : bool := negb (PrimFloat.eqb x 0).
Definition int_truthy (n : Z) : bool := negb (n =? 0).

Section SearchPlaces.
(** [float(text)] and [int(text)]: [None] for a [ValueError]. *)
Context (to_float : string -> option float) (to_int : string -> option Z).

(** [search_places] up to the request: [None] when it returns early with
    "Search term is required!". *)
Definition search_params (lines : Lines) : option Params :=
  match get_text (line_term lines) (Some "shawarma") with
  | None | Some EmptyString => None
  | Some term =>
      let lat := get_input (line_lat lines) (Some 45.4215%float) to_float float_truthy in
      let lng := get_input (line_lng lines) (Some (-75.6972)%float) to_float float_truthy in
      let radius_m := get_input (line_radius lines) (Some 5000) to_int int_truthy in
      let limit := get_input (line_limit lines) (Some 10) to_int int_truthy in
      let open_now_input := default "" (get_text (line_open_now lines) (Some "n")) in
      let open_now := parse_open_now open_now_input in
      let price := get_text (line_price lines) (Some "") in
      Some {| params_term := term;
              params_lat := lat;
              params_lng := lng;
              params_radius_m := radius_m;
              params_limit := limit;
              params_open_now := open_now;
              params_price := if truthy price then price else None |}
  end.
End SearchPlaces.

End Console.

(* ===================================================================== *)
(** ** Notions used in the statements                                      *)
(* ===================================================================== *)

Import Py App.

(** The formula of the spec, [(v/(v+m))·R + (m/(v+m))·C], for any prior [C]
    and damping [m], each quotient and operation rounded once. *)
Definition weighted_average (C : float) (m : Z) (R : float) (v : Z) : float :=
  (nearest_quot v (v + m) * R + nearest_quot m (v + m) * C)%float.

(** [x] is within [tol] of the decimal [d]. *)
Definition within (tol : Q) (x : float) (d : Q) : Prop :=
  exists q, to_Q x = Some q /\ (Qabs (q - d) <= tol)%Q.

Definition within_b (tol : Q) (x : float) (d : Q) : bool :=
  match to_Q x with
  | Some q => Qle_bool (Qabs (q - d)) tol
  | None => false
  end.

(** Half a unit of the second decimal: what rounding to two places allows. *)
Definition rounding_tolerance : Q := 5 # 1000.

(** Non-nan floats are ordered as these triples are, lexicographically:
    class (infinities, negative, zero, positive), then exponent, then
    mantissa.  Both zeros have one rank. *)
Definition sf_rank (x : spec_float) : option (Z * Z * Z) :=
  match x with
  | S754_nan => None
  | S754_infinity true => Some (-2, 0, 0)
  | S754_finite true m e => Some (-1, - e, Zneg m)
  | S754_zero _ => Some (0, 0, 0)
  | S754_finite false m e => Some (1, e, Zpos m)
  | S754_infinity false => Some (2, 0, 0)
  end.

Definition rank (x : float) : option (Z * Z * Z) := sf_rank (Prim2SF x).

Definition lex_lt (r1 r2 : Z * Z * Z) : Prop :=
  let '(a1, b1, c1) := r1 in
  let '(a2, b2, c2) := r2 in
  a1 < a2 \/ (a1 = a2 /\ (b1 < b2 \/ (b1 = b2 /\ c1 < c2))).

Section Orders.
Context {A : Type} (key : A -> float).

(** [a] may stand before [b] in ascending order: [b] is not below [a]. *)
Definition asc (a b : A) : Prop := PrimFloat.ltb (key b) (key a) = false.

(** [a] may stand before [b] in descending order. *)
Definition desc (a b : A) : Prop := PrimFloat.ltb (key a) (key b) = false.

(** [a]'s key is at least [b]'s. *)
Definition key_ge (a b : A) : Prop := PrimFloat.leb (key b) (key a) = true.

Definition same_key (k : float) (a : A) : bool := PrimFloat.eqb (key a) k.

Definition no_nan (l : list A) : Prop :=
  Forall (fun a => is_nan (key a) = false) l.
End Orders.

(** [c] occurs in [s]. *)
Definition occurs (c : ascii) (s : string) : Prop :=
  In c (list_ascii_of_string s).

(** The characters of a well-formed price filter. *)
Definition price_alphabet : list ascii :=
  ["1"; "2"; "3"; "4"; ","; " "]%char.

(** The price tiers a query names: the set the validation looks at. *)
Definition price_tiers (q : Query) : gset string :=
  match q_price q with
  | Some (String _ _ as p) => price_parts p
  | _ => ∅
  end.

(** The price text as the cache key takes it. *)
Definition price_text (q : Query) : string := price_or_empty (q_price q).

(** The upstream call for a query, and its parameters. *)
Definition params_of (q : Query) : YelpParams :=
  yelp_params (term q) (lat q) (lng q) (radius_m q) (limit q) (open_now q)
              (q_price q).

Definition search_for (get : YelpParams -> GetOutcome) (q : Query)
  : list YelpParams * py (list Business) :=
  search_yelp get (term q) (lat q) (lng q) (radius_m q) (limit q) (open_now q)
              (q_price q).

(** Equal in everything the spec lists for the key: term, center, radius,
    open-now flag and set of price tiers. *)
Definition same_normalized_query (q1 q2 : Query) : Prop :=
  term q1 = term q2 /\ lat q1 = lat q2 /\ lng q1 = lng q2 /\
  radius_m q1 = radius_m q2 /\ open_now q1 = open_now q2 /\
  price_tiers q1 = price_tiers q2.

Definition with_limit (q : Query) (n : Z) : Query :=
  {| term := term q; lat := lat q; lng := lng q; radius_m := radius_m q;
     limit := n; open_now := open_now q; q_price := q_price q |}.

Definition with_term (raw : RawQuery) (t : option string) : RawQuery :=
  {| raw_term := t; raw_lat := raw_lat raw; raw_lng := raw_lng raw;
     raw_radius_m := raw_radius_m raw; raw_limit := raw_limit raw;
     raw_open_now := raw_open_now raw; raw_price := raw_price raw |}.

(** The reply is a client error. *)
Definition client_error (r : HttpReply) : Prop :=
  match r with
  | ReplyError status _ => 400 <= status < 500
  | Reply200 _ => False
  end.

(** The moment until which a link stored at [now] is fresh. *)
Definition fresh_until (stored_at : float) : float := (stored_at + CACHE_TTL)%float.

(** The cache after a sequence of requests, each with its own readings of
    the outside. *)
Definition run_requests (reqs : list (Env * Query)) (cache : Cache) : Cache :=
  fold_left (fun c r => cache_after (get_top_places (fst r) c (snd r))) reqs cache.

(** The timer is monotonic: a request handled before the call of [env]
    reads it no later than that call's first reading. *)
Definition reads_before (env : Env) (r : Env * Query) : Prop :=
  PrimFloat.leb (now_contains (fst r)) (now_contains env) = true /\
  PrimFloat.leb (now_setitem (fst r)) (now_contains env) = true.

(** [o] is the only link with its key in [before ++ o :: after]. *)
Definition around {V : Type} (o : Cachetools.link V)
    (before after : list (Cachetools.link V)) : Prop :=
  Cachetools.getlink (Cachetools.key o) before = None /\
  Cachetools.getlink (Cachetools.key o) after = None.

(** The response [resp] sits in the cache under key [k] with expiry [e], as
    the only link with that key, with at most [n] links behind it. *)
Definition kept (k : string) (resp : TopPlacesResponse) (e : float) (n : nat)
    (cache : Cache) : Prop :=
  exists before after,
    cache = before ++ Cachetools.Link k resp e :: after /\
    around (Cachetools.Link k resp e) before after /\
    (length after <= n)%nat.

Definition with_price (q : Query) (p : option string) : Query :=
  {| term := term q; lat := lat q; lng := lng q; radius_m := radius_m q;
     limit := limit q; open_now := open_now q; q_price := p |}.

(** A text without the character [c]. *)
Definition free_of (c : ascii) (s : string) : Prop := ~ occurs c s.

(** The cache holds one link per key and no more than its capacity. *)
Definition cache_ok (cache : Cache) : Prop :=
  List.NoDup (map Cachetools.key cache) /\
  Z.of_nat (length cache) <= CACHE_MAXSIZE.

(** A declared bound of the route is broken, or a coordinate is missing. *)
Definition breaks_declared_bounds (raw : RawQuery) : Prop :=
  raw_lat raw = None \/ raw_lng raw = None \/
  (exists x, raw_lat raw = Some x /\ float_between (-90) 90 x = false) \/
  (exists x, raw_lng raw = Some x /\ float_between (-180) 180 x = false) \/
  (exists n, raw_radius_m raw = Some n /\ ~ 100 <= n <= 40000) \/
  (exists n, raw_limit raw = Some n /\ ~ 1 <= n <= 50).

Definition is_infinity (x : float) : bool :=
  match Prim2SF x with
  | S754_infinity _ => true
  | _ => false
  end.

(** The text that [get_input] works on is empty: the line was blank. *)
Definition blank (line : string) : Prop := Console.strip line = "".

(** The constructor of [BusinessResult] keeps arguments that are of the
    declared types. *)
Definition accepts_declared_types
    (init : BusinessResultArgs -> py BusinessResult) : Prop :=
  forall a r, validated a = Some r -> init a = Return r.

(** *** Concrete inputs *)

(** An upstream business whose review count is negative. *)
Definition biz_negative_count : Business :=
  {| b_rating := Some 4.5%float;
     b_review_count := Some (-150);
     b_name := Some "Cafe";
     b_price := Some "$$";
     b_distance := Some 120.5%float;
     b_location := Some {| display_address := Some ["1 Main St"; "Ottawa"] |};
     b_url := Some "https://www.yelp.com/biz/cafe";
     b_id := Some "cafe-1" |}.

(** A new business with a perfect rating, and one with no count at all. *)
Definition biz_three_reviews : Business :=
  {| b_rating := Some 5%float;
     b_review_count := Some 3;
     b_name := Some "New Place";
     b_price := None;
     b_distance := Some 850%float;
     b_location := Some {| display_address := Some ["2 Side St"] |};
     b_url := Some "https://www.yelp.com/biz/new-place";
     b_id := Some "new-place" |}.

Definition biz_no_count : Business :=
  {| b_rating := Some 4%float;
     b_review_count := None;
     b_name := None;
     b_price := None;
     b_distance := None;
     b_location := None;
     b_url := None;
     b_id := None |}.

(** An established business. *)
Definition biz_established : Business :=
  {| b_rating := Some 4.6%float;
     b_review_count := Some 1200;
     b_name := Some "Old Place";
     b_price := Some "$$$";
     b_distance := Some 2300.75%float;
     b_location := Some {| display_address := Some ["3 High St"; "Ottawa"; "ON"] |};
     b_url := Some "https://www.yelp.com/biz/old-place";
     b_id := Some "old-place" |}.

(** Three scored results, the first and the last tied. *)
Definition result_scored (n : string) (s : float) : BusinessResult :=
  {| name := n; rating := 4; review_count := 10; score := s; price := None;
     distance_m := 100; address := ""; url := ""; yelp_id := n |}.

Definition scored_sample : list BusinessResult :=
  [result_scored "a" 3.82; result_scored "b" 4.51; result_scored "c" 3.82].

(** An upstream that answers every call with status 200 and the given
    businesses, and a timer that reads 1000.0, 1000.0 and 1001.0. *)
Definition env_answering (businesses : list Business) : Env :=
  {| now_contains := 1000;
     now_getitem := 1000;
     now_setitem := 1001;
     requests_get := fun _ =>
       Responded {| status_code := 200; text := "{...}";
                    json := JsonObject (Some businesses) |} |}.

(** The text of a transport failure, 250 characters long. *)
Definition long_message : string :=
  string_of_list_ascii (repeat "x"%char 250).

(** An upstream that gives every call the same outcome. *)
Definition always (o : GetOutcome) : YelpParams -> GetOutcome := fun _ => o.

Definition response_with (status : Z) (body : string) : Response :=
  {| status_code := status; text := body; json := JsonInvalid "not JSON" |}.

(** A request with every parameter in range and an empty term. *)
Definition raw_empty_term : RawQuery :=
  {| raw_term := Some ""; raw_lat := Some 43.6532%float;
     raw_lng := Some (-79.3832)%float; raw_radius_m := None;
     raw_limit := None; raw_open_now := None; raw_price := None |}.

(** A later moment, 299 seconds after the store of [env_answering], with
    an upstream that cannot be reached. *)
Definition env_later : Env :=
  {| now_contains := 1300;
     now_getitem := 1300.5;
     now_setitem := 1301;
     requests_get := always (Failed "unreachable") |}.

(** A request handled in between, 100 seconds after the store. *)
Definition env_between : Env :=
  {| now_contains := 1100;
     now_getitem := 1100;
     now_setitem := 1101;
     requests_get := always (Responded {| status_code := 200; text := "{...}";
                                          json := JsonObject (Some [biz_no_count]) |}) |}.

Definition query_pizza : Query :=
  {| term := "pizza"; lat := 45.4215; lng := -75.6972; radius_m := 1000;
     limit := 5; open_now := false; q_price := Some "1, 2" |}.

(** The query that the route makes of [raw_empty_term]. *)
Definition query_default : Query :=
  {| term := ""; lat := 43.6532; lng := -79.3832; radius_m := 5000;
     limit := 10; open_now := false; q_price := None |}.

(** A business whose distance is not a number. *)
Definition biz_nan_distance : Business :=
  {| b_rating := Some 4%float;
     b_review_count := Some 20;
     b_name := Some "Nowhere";
     b_price := None;
     b_distance := Some nan;
     b_location := None;
     b_url := None;
     b_id := Some "nowhere" |}.

(** Businesses as JSON: [biz_three_reviews] as received, a record whose
    count is null, one whose location is null and one whose rating is
    text. *)
Definition json_three_reviews : Json :=
  JDict [("id", JStr "new-place"); ("name", JStr "New Place");
         ("rating", JFloat 5); ("review_count", JInt 3);
         ("distance", JFloat 850);
         ("location", JDict [("display_address", JList [JStr "2 Side St"])]);
         ("url", JStr "https://www.yelp.com/biz/new-place")].

Definition json_null_count : Json :=
  JDict [("name", JStr "Cafe"); ("rating", JFloat 4.5); ("review_count", JNull)].

Definition json_null_location : Json :=
  JDict [("name", JStr "Cafe"); ("rating", JFloat 4.5); ("review_count", JInt 12);
         ("location", JNull)].

Definition json_text_rating : Json :=
  JDict [("name", JStr "Cafe"); ("rating", JStr "4.5")].

(** A constructor that refuses whatever is not of the declared types, and
    an [int] that reads one text. *)
Definition init_declared_only (a : BusinessResultArgs) : py BusinessResult :=
  match validated a with
  | Some r => Return r
  | None => Raise ValidationError
  end.

Definition int_of_str_sample (s : string) : option Z :=
  if String.eqb s "12" then Some 12 else None.

(** A request with a latitude beyond the pole. *)
Definition raw_lat_91 : RawQuery :=
  {| raw_term := Some "sushi"; raw_lat := Some 91%float;
     raw_lng := Some (-79.3832)%float; raw_radius_m := None;
     raw_limit := None; raw_open_now := None; raw_price := None |}.

(** A repeat whose membership test comes exactly at the expiry of what
    [env_answering] stored, 1001.0 + 600. *)
Definition env_at_expiry : Env :=
  {| now_contains := 1601;
     now_getitem := 1601;
     now_setitem := 1602;
     requests_get := always (TimedOut "read timed out") |}.

(** A repeat whose membership test comes just before that expiry and whose
    lookup comes just after. *)
Definition env_across_expiry : Env :=
  {| now_contains := 1600.75;
     now_getitem := 1601.25;
     now_setitem := 1602;
     requests_get := always (TimedOut "read timed out") |}.

(** What is typed for a search with a price, every other line blank but
    the open-now answer, and conversions that know two texts. *)
Definition lines_typed : Console.Lines :=
  {| Console.line_term := "  "; Console.line_lat := "45.5";
     Console.line_lng := ""; Console.line_radius := "abc";
     Console.line_limit := "  "; Console.line_open_now := " Yes ";
     Console.line_price := " 1,2 " |}.

Definition to_float_sample (s : string) : option float :=
  if String.eqb s "45.5" then Some 45.5%float else None.

Definition to_int_sample (s : string) : option Z :=
  if String.eqb s "25" then Some 25 else None.

Definition query_sushi (price : option string) : Query :=
  {| term := "sushi"; lat := 43.6532; lng := -79.3832; radius_m := 5000;
     limit := 10; open_now := true; q_price := price |}.

(* ===================================================================== *)
(** ** The order of floats                                                 *)
(* ===================================================================== *)

Ltac rank_cases x y :=
  destruct x as [[]|[]| |[] ?m ?e], y as [[]|[]| |[] ?m ?e]; cbn;
  repeat match goal with
    | |- context [Pos.compare_cont Eq ?a ?b] =>
        change (Pos.compare_cont Eq a b) with (Pos.compare a b);
        destruct (Pos.compare_spec a b)
    | |- context [Z.compare ?a ?b] => destruct (Z.compare_spec a b)
    end; cbn.

Lemma SFltb_rank x y :
  SFltb x y = true <->
  match sf_rank x, sf_rank y with
  | Some r1, Some r2 => lex_lt r1 r2
  | _, _ => False
  end.
Proof.
  unfold SFltb, lex_lt.
  rank_cases x y; split; intros Hyp; try reflexivity; try discriminate; try lia; try tauto.
Qed.

Lemma SFeqb_rank x y :
  SFeqb x y = true <->
  match sf_rank x, sf_rank y with
  | Some r1, Some r2 => r1 = r2
  | _, _ => False
  end.
Proof.
  unfold SFeqb.
  rank_cases x y; split; intros Hyp; try reflexivity; try discriminate; try tauto;
    try (injection Hyp; intros; lia); try (repeat f_equal; lia).
Qed.

Lemma SFleb_rank x y :
  SFleb x y = true <->
  match sf_rank x, sf_rank y with
  | Some r1, Some r2 => lex_lt r1 r2 \/ r1 = r2
  | _, _ => False
  end.
Proof.
  unfold SFleb, lex_lt.
  rank_cases x y; split; intros Hyp; try reflexivity; try discriminate; try tauto;
    try (destruct Hyp as [Hyp|Hyp]; [lia | injection Hyp; intros; lia]);
    try (left; lia); try (right; repeat f_equal; lia).
Qed.

Lemma float_is_nan_rank x : is_nan x = false <-> exists r, rank x = Some r.
Proof.
  unfold is_nan, rank. destruct (Prim2SF x) as [[]|[]| |[] m e]; cbn;
    split; try discriminate; try (intros [r Hr]; discriminate); eauto.
Qed.

Lemma float_ltb_rank x y :
  PrimFloat.ltb x y = true <->
  exists r1 r2, rank x = Some r1 /\ rank y = Some r2 /\ lex_lt r1 r2.
Proof.
  rewrite ltb_spec, SFltb_rank. unfold rank.
  destruct (sf_rank (Prim2SF x)) as [r1|], (sf_rank (Prim2SF y)) as [r2|];
    split; try tauto; try (intros (a & b & Ha & Hb & Hab); congruence).
  intros Hlt. exists r1, r2. auto.
Qed.

Lemma float_leb_rank x y :
  PrimFloat.leb x y = true <->
  exists r1 r2, rank x = Some r1 /\ rank y = Some r2 /\ (lex_lt r1 r2 \/ r1 = r2).
Proof.
  rewrite leb_spec, SFleb_rank. unfold rank.
  destruct (sf_rank (Prim2SF x)) as [r1|], (sf_rank (Prim2SF y)) as [r2|];
    split; try tauto; try (intros (a & b & Ha & Hb & Hab); congruence).
  intros Hlt. exists r1, r2. auto.
Qed.

Lemma float_eqb_rank x y :
  PrimFloat.eqb x y = true <-> exists r, rank x = Some r /\ rank y = Some r.
Proof.
  rewrite FloatAxioms.eqb_spec, SFeqb_rank. unfold rank.
  destruct (sf_rank (Prim2SF x)) as [r1|], (sf_rank (Prim2SF y)) as [r2|];
    split; try tauto; try (intros (a & Ha & Hb); congruence).
  intros ->. eauto.
Qed.

Ltac lex_solve :=
  unfold lex_lt in *;
  repeat match goal with
    | r : (Z * Z * Z)%type |- _ => destruct r as [[? ?] ?]
    end;
  repeat match goal with
    | H : (_, _, _) = (_, _, _) |- _ => injection H as ? ? ?
    end;
  try lia.

Lemma lex_lt_total r1 r2 : lex_lt r1 r2 \/ r1 = r2 \/ lex_lt r2 r1.
Proof.
  destruct r1 as [[a1 b1] c1], r2 as [[a2 b2] c2]. unfold lex_lt.
  destruct (Z.lt_total a1 a2) as [?|[?|?]]; [lia| |lia].
  destruct (Z.lt_total b1 b2) as [?|[?|?]]; [lia| |lia].
  destruct (Z.lt_total c1 c2) as [?|[?|?]]; [lia| |lia].
  right. left. congruence.
Qed.

Lemma float_ltb_asym x y : PrimFloat.ltb x y = true -> PrimFloat.ltb y x = false.
Proof.
  intros (r1 & r2 & H1 & H2 & Hlt)%float_ltb_rank.
  apply not_true_is_false. intros (s2 & s1 & G2 & G1 & Hgt)%float_ltb_rank.
  assert (s1 = r1) by congruence. assert (s2 = r2) by congruence. subst.
  lex_solve.
Qed.

Lemma float_ltb_negtrans x y z :
  is_nan y = false -> PrimFloat.ltb z x = true ->
  PrimFloat.ltb z y = true \/ PrimFloat.ltb y x = true.
Proof.
  intros [ry Hy]%float_is_nan_rank (rz & rx & Hz & Hx & Hlt)%float_ltb_rank.
  destruct (lex_lt_total rz ry) as [H|[H|H]].
  - left. apply float_ltb_rank. eauto 6.
  - right. subst. apply float_ltb_rank. eauto 6.
  - right. apply float_ltb_rank. exists ry, rx. repeat split; auto. lex_solve.
Qed.

Lemma float_eqb_not_ltb x y k :
  PrimFloat.eqb x k = true -> PrimFloat.eqb y k = true -> PrimFloat.ltb x y = false.
Proof.
  intros (r & Hx & Hk)%float_eqb_rank (s & Hy & Hk')%float_eqb_rank.
  apply not_true_is_false. intros (r1 & r2 & H1 & H2 & Hlt)%float_ltb_rank.
  assert (r1 = r2) by congruence. subst. lex_solve.
Qed.

Lemma float_not_ltb_leb x y :
  is_nan x = false -> is_nan y = false ->
  PrimFloat.ltb x y = false -> PrimFloat.leb y x = true.
Proof.
  intros [rx Hx]%float_is_nan_rank [ry Hy]%float_is_nan_rank Hn.
  apply float_leb_rank. exists ry, rx. repeat split; auto.
  destruct (lex_lt_total rx ry) as [H|[H|H]]; auto.
  exfalso. apply not_true_iff_false in Hn. apply Hn. apply float_ltb_rank. eauto 6.
Qed.

Lemma float_leb_ltb_trans a b c :
  PrimFloat.leb a b = true -> PrimFloat.ltb b c = true -> PrimFloat.ltb a c = true.
Proof.
  intros (ra & rb & Ha & Hb & Hab)%float_leb_rank (rb' & rc & Hb' & Hc & Hbc)%float_ltb_rank.
  assert (rb' = rb) by congruence. subst rb'.
  apply float_ltb_rank. exists ra, rc. repeat split; auto.
  destruct Hab as [Hab| ->]; [|exact Hbc].
  destruct ra as [[? ?] ?], rb as [[? ?] ?], rc as [[? ?] ?]. unfold lex_lt in *. lia.
Qed.

(* ===================================================================== *)
(** ** The stable sort                                                     *)
(* ===================================================================== *)

Section SortTheory.
Context {A : Type} (key : A -> float).

Lemma insert_sorted_perm x l : Permutation (insert_sorted key x l) (x :: l).
Proof.
  induction l as [|y l IH]; cbn; [reflexivity|].
  destruct (PrimFloat.ltb (key y) (key x)); [|reflexivity].
  rewrite IH. apply perm_swap.
Qed.

Lemma sort_stable_perm l : Permutation (sort_stable key l) l.
Proof.
  induction l as [|x l IH]; [reflexivity|].
  change (sort_stable key (x :: l)) with (insert_sorted key x (sort_stable key l)).
  rewrite insert_sorted_perm. now constructor.
Qed.

Lemma sort_reverse_perm l : Permutation (sort_reverse key l) l.
Proof.
  unfold sort_reverse.
  rewrite <- Permutation_rev, sort_stable_perm, <- Permutation_rev. reflexivity.
Qed.

Lemma insert_sorted_asc x l :
  is_nan (key x) = false -> no_nan key l ->
  StronglySorted (asc key) l -> StronglySorted (asc key) (insert_sorted key x l).
Proof.
  intros Hx Hl Hs. induction Hs as [|y l Hs IH Hy]; cbn.
  - repeat constructor.
  - apply Forall_cons in Hl as [Hny Hl].
    destruct (PrimFloat.ltb (key y) (key x)) eqn:E.
    + constructor; [auto|].
      rewrite (insert_sorted_perm x l). constructor; [|assumption].
      unfold asc. now apply float_ltb_asym.
    + constructor; [now constructor|].
      constructor; [exact E|].
      rewrite Forall_forall in Hy |- *. intros z Hz. specialize (Hy z Hz).
      unfold asc in *. apply not_true_is_false. intros Hzx.
      destruct (float_ltb_negtrans _ _ _ Hny Hzx); congruence.
Qed.

Lemma sort_stable_asc l :
  no_nan key l -> StronglySorted (asc key) (sort_stable key l).
Proof.
  induction 1 as [|x l Hx Hl IH]; [constructor|].
  change (StronglySorted (asc key) (insert_sorted key x (sort_stable key l))).
  apply insert_sorted_asc; auto.
  unfold no_nan. now rewrite sort_stable_perm.
Qed.

Lemma StronglySorted_rev (R : relation A) l :
  StronglySorted R l -> StronglySorted (flip R) (rev l).
Proof.
  induction 1 as [|x l Hs IH Hx]; cbn; [constructor|].
  apply StronglySorted_app_2; [|assumption|repeat constructor].
  intros a b Ha Hb. apply list_elem_of_singleton in Hb as ->.
  rewrite Forall_forall in Hx. apply Hx.
  apply list_elem_of_In. apply list_elem_of_In in Ha. now apply in_rev.
Qed.

Lemma sort_reverse_desc l :
  no_nan key l -> StronglySorted (desc key) (sort_reverse key l).
Proof.
  intros Hl. unfold sort_reverse.
  apply (StronglySorted_rev (asc key)). apply sort_stable_asc.
  unfold no_nan in *. now rewrite <- Permutation_rev.
Qed.

Lemma insert_sorted_filter k x l :
  List.filter (same_key key k) (insert_sorted key x l) = List.filter (same_key key k) (x :: l).
Proof.
  induction l as [|y l IH]; [reflexivity|]. cbn [insert_sorted].
  destruct (PrimFloat.ltb (key y) (key x)) eqn:E; [|reflexivity].
  change (List.filter (same_key key k) (y :: insert_sorted key x l))
    with (if same_key key k y then y :: List.filter (same_key key k) (insert_sorted key x l)
          else List.filter (same_key key k) (insert_sorted key x l)).
  rewrite IH. cbn [List.filter].
  destruct (same_key key k y) eqn:Ey, (same_key key k x) eqn:Ex; try reflexivity.
  unfold same_key in *. rewrite (float_eqb_not_ltb _ _ _ Ey Ex) in E. discriminate.
Qed.

Lemma sort_stable_filter k l :
  List.filter (same_key key k) (sort_stable key l) = List.filter (same_key key k) l.
Proof.
  induction l as [|x l IH]; [reflexivity|].
  change (sort_stable key (x :: l)) with (insert_sorted key x (sort_stable key l)).
  rewrite insert_sorted_filter. cbn [List.filter].
  now rewrite IH.
Qed.

Lemma sort_reverse_filter k l :
  List.filter (same_key key k) (sort_reverse key l) = List.filter (same_key key k) l.
Proof.
  unfold sort_reverse.
  now rewrite List.filter_rev, sort_stable_filter, List.filter_rev, rev_involutive.
Qed.
End SortTheory.

(* ===================================================================== *)
(** ** The Bayesian score                                                  *)
(* ===================================================================== *)

Lemma within_b_spec tol x d : within_b tol x d = true <-> within tol x d.
Proof.
  unfold within_b, within. destruct (to_Q x) as [q|].
  - rewrite Qle_bool_iff. split; [eauto|]. now intros (q' & [= <-] & H).
  - split; [discriminate|]. now intros (q' & [=] & _).
Qed.

Lemma overflow_threshold_large : 2 <= overflow_threshold.
Proof. apply Z.leb_le. vm_compute. reflexivity. Qed.

(** A quotient of non-negative ints with a positive divisor at least as
    large as the dividend is computed without an exception. *)
Lemma truediv_fraction a b :
  0 <= a <= b -> 0 < b -> truediv a b = Return (nearest_quot a b).
Proof.
  intros Ha Hb. unfold truediv.
  destruct (Z.eqb_spec b 0) as [->|_]; [lia|].
  pose proof overflow_threshold_large as HT.
  destruct (Z.leb_spec (overflow_threshold * Z.abs b) (Z.abs a)) as [Hle|_];
    [|reflexivity].
  exfalso. revert HT Hle. generalize overflow_threshold. intros T HT Hle. nia.
Qed.

(** A zero weight on a finite rating leaves the other term alone. *)
Lemma zero_weight_prior R :
  is_finite R = true -> (0 * R + 1 * PRIOR_RATING)%float = PRIOR_RATING.
Proof.
  intros HR.
  replace (1 * PRIOR_RATING)%float with PRIOR_RATING by (vm_compute; reflexivity).
  apply Prim2SF_inj. rewrite add_spec, mul_spec.
  replace (Prim2SF 0) with (S754_zero false) by (vm_compute; reflexivity).
  replace (Prim2SF PRIOR_RATING) with (S754_finite false 8556839292003942 (-51))
    by (vm_compute; reflexivity).
  unfold is_finite in HR.
  destruct (Prim2SF R) as [s|s| |s m e]; try discriminate; reflexivity.
Qed.

Lemma score_of_nonnegative_count R v :
  0 <= v ->
  calculate_bayesian_score R v
  = Return (weighted_average PRIOR_RATING DAMPING_FACTOR R v).
Proof.
  intros Hv. unfold calculate_bayesian_score, weighted_average, DAMPING_FACTOR.
  rewrite !truediv_fraction by lia. reflexivity.
Qed.

(** A rating in the range of the spec, [0 <= R <= 5], is finite. *)
Lemma rating_in_range_is_finite R :
  float_between 0 5 R = true -> is_finite R = true.
Proof.
  unfold float_between. intros [H0 H5]%andb_true_iff.
  apply float_leb_rank in H0 as (r0 & r & E0 & ER & H0).
  apply float_leb_rank in H5 as (r' & r5 & ER' & E5 & H5).
  assert (r' = r) by congruence. subst r'.
  vm_compute in E0. injection E0 as <-. vm_compute in E5. injection E5 as <-.
  unfold rank in ER. unfold is_finite.
  destruct (Prim2SF R) as [s|[]| |[] m e]; cbn in ER; try reflexivity;
    try discriminate; injection ER as <-; exfalso;
    destruct H0 as [H0|H0], H5 as [H5|H5]; cbn in H0, H5;
    try discriminate; lia.
Qed.

(** C1.  For every rating [R] and review count [v >= 0] the scorer returns
    [(v/(v+m))*R + (m/(v+m))*C] with [C = 3.8] and [m = 150]; and for every
    finite rating the score at zero reviews is the prior [C]. *)
Theorem calculate_bayesian_score_formula (R : float) (v : Z) :
  0 <= v ->
  calculate_bayesian_score R v = Return (weighted_average 3.8 150 R v) /\
  (is_finite R = true -> calculate_bayesian_score R 0 = Return 3.8%float).
Proof.
  intros Hv. split.
  - now apply score_of_nonnegative_count.
  - intros HR. unfold calculate_bayesian_score, DAMPING_FACTOR.
    rewrite !truediv_fraction by lia. cbn [mbind py_bind mret py_ret].
    change (0 + 150) with 150.
    replace (nearest_quot 0 150) with 0%float by (vm_compute; reflexivity).
    replace (nearest_quot 150 150) with 1%float by (vm_compute; reflexivity).
    f_equal. now apply zero_weight_prior.
Qed.

Lemma calculate_bayesian_score_formula_witness :
  0 <= 3 /\ is_finite 5 = true /\
  calculate_bayesian_score 5 3 = Return (weighted_average 3.8 150 5 3) /\
  calculate_bayesian_score 5 0 = Return 3.8%float.
Proof.
  split; [lia|]. split; [reflexivity|].
  destruct (calculate_bayesian_score_formula 5 3 ltac:(lia)) as [Hf H0].
  split; [exact Hf | exact (H0 eq_refl)].
Defined.

(** C2.  The scorer does not give the values of its own docstring
    ("5.0 with 3 reviews -> ~3.88, 4.6 with 1200 reviews -> ~4.58"): with
    [C = 3.8] and [m = 150] the score of 5.0 with 3 reviews is not within
    0.05 of 3.88, and the score of 4.6 with 1200 reviews is not within 0.05
    of 4.58. *)
Lemma docstring_examples_refuted :
  ~ (exists s, calculate_bayesian_score 5 3 = Return s /\ within (5 # 100) s (388 # 100)) /\
  ~ (exists s, calculate_bayesian_score 4.6 1200 = Return s /\ within (5 # 100) s (458 # 100)).
Proof.
  split; intros (s & Hs & Hw); apply within_b_spec in Hw;
    vm_compute in Hs; injection Hs as <-; vm_compute in Hw; discriminate.
Qed.

(** What the scorer returns at the two inputs of its docstring: 3.8235...
    for 5.0 with 3 reviews and 4.5111... for 4.6 with 1200 reviews, which
    [round(score, 2)] turns into 3.82 and 4.51. *)
Lemma docstring_examples_actual :
  exists s1 s2,
    calculate_bayesian_score 5 3 = Return s1 /\
    calculate_bayesian_score 4.6 1200 = Return s2 /\
    within rounding_tolerance s1 (382 # 100) /\
    within rounding_tolerance s2 (451 # 100) /\
    round2 s1 = 3.82%float /\ round2 s2 = 4.51%float.
Proof.
  exists (weighted_average 3.8 150 5 3), (weighted_average 3.8 150 4.6 1200).
  repeat split; try apply within_b_spec; vm_compute; reflexivity.
Qed.

(** C6, as stated, fails: a negative review count reaches the scorer as it
    is.  With [review_count = -150] the denominator [v + m] is zero, the
    scorer raises [ZeroDivisionError], and the request ends in a 500. *)
Lemma negative_review_count_reaches_scorer :
  review_count_of biz_negative_count < 0 /\
  review_count_of biz_negative_count + DAMPING_FACTOR = 0 /\
  score_business biz_negative_count = Raise ZeroDivisionError /\
  let o := get_top_places (env_answering [biz_negative_count]) [] (query_sushi None) in
  reply_of (result o) = ReplyError 500 "Internal Server Error" /\ cache_after o = [].
Proof. repeat split; vm_compute; reflexivity. Qed.

(* ===================================================================== *)
(** ** Re-ranking                                                          *)
(* ===================================================================== *)

Lemma StronglySorted_weaken {A : Type} (R R' : relation A) (l : list A) :
  (forall a b, In a l -> In b l -> R a b -> R' a b) ->
  StronglySorted R l -> StronglySorted R' l.
Proof.
  intros Himp Hs. induction Hs as [|x l Hs IH Hx]; constructor.
  - apply IH. intros a b Ha Hb. apply Himp; now right.
  - rewrite List.Forall_forall in Hx |- *. intros y Hy.
    apply Himp; [now left | now right | auto].
Qed.

Lemma slice_to_firstn {A : Type} (l : list A) (n : Z) :
  0 <= n -> slice_to l n = firstn (Z.to_nat n) l.
Proof. intros Hn. unfold slice_to. destruct (Z.leb_spec 0 n); [reflexivity|lia]. Qed.

(** What sorting by descending key and cutting after [n] entries gives. *)
Lemma sort_then_cut {A : Type} (key : A -> float) (l : list A) (n : nat) :
  no_nan key l ->
  let final := firstn n (sort_reverse key l) in
  let dropped := skipn n (sort_reverse key l) in
  Permutation l (final ++ dropped) /\
  length final = Nat.min n (length l) /\
  StronglySorted (key_ge key) (final ++ dropped) /\
  (forall x y, In x final -> In y dropped -> key_ge key x y) /\
  (forall k, List.filter (same_key key k) (final ++ dropped)
             = List.filter (same_key key k) l).
Proof.
  intros Hl final dropped.
  assert (Hcat : final ++ dropped = sort_reverse key l) by apply firstn_skipn.
  assert (Hnan : no_nan key (sort_reverse key l)).
  { unfold no_nan in *. now rewrite sort_reverse_perm. }
  assert (Hge : StronglySorted (key_ge key) (sort_reverse key l)).
  { apply (StronglySorted_weaken (desc key)); [|now apply sort_reverse_desc].
    unfold no_nan in Hnan. rewrite List.Forall_forall in Hnan.
    intros a b Ha Hb. apply float_not_ltb_leb; auto. }
  split; [rewrite Hcat; symmetry; apply sort_reverse_perm|].
  split.
  { unfold final. rewrite length_firstn.
    now rewrite (Permutation_length (sort_reverse_perm key l)). }
  split; [now rewrite Hcat|].
  split; [|intros k; rewrite Hcat; apply sort_reverse_filter].
  intros x y Hx Hy. rewrite <- Hcat in Hge.
  apply (StronglySorted_app_1_elem_of _ _ _ _ _ Hge); now apply list_elem_of_In.
Qed.

(** C5.  For every list of scored results (no score a nan) and every
    display limit [N >= 0]: the results of the response are the first [N]
    of the list sorted by descending score, or all of it when it is
    shorter; together with the entries dropped they are a permutation of
    the input in descending order of score, so no dropped entry scores
    above a kept one; and entries with equal score keep the order they had
    on input. *)
Theorem top_n_by_score (q : Query) (scored : list BusinessResult) :
  no_nan score scored -> 0 <= limit q ->
  let final := results (build_response q scored) in
  exists dropped,
    Permutation scored (final ++ dropped) /\
    length final = Nat.min (Z.to_nat (limit q)) (length scored) /\
    count (build_response q scored) = Z.of_nat (length final) /\
    StronglySorted (key_ge score) (final ++ dropped) /\
    (forall x y, In x final -> In y dropped -> key_ge score x y) /\
    (forall k, List.filter (same_key score k) (final ++ dropped)
               = List.filter (same_key score k) scored).
Proof.
  intros Hnan Hlim final.
  exists (skipn (Z.to_nat (limit q)) (sort_reverse score scored)).
  unfold final, build_response. cbn [results count].
  rewrite (slice_to_firstn _ _ Hlim).
  destruct (sort_then_cut score scored (Z.to_nat (limit q)) Hnan)
    as (Hp & Hlen & Hs & Hge & Hst).
  repeat split; assumption.
Qed.

Lemma top_n_by_score_witness :
  no_nan score scored_sample /\ 0 <= limit (with_limit (query_sushi None) 2) /\
  results (build_response (with_limit (query_sushi None) 2) scored_sample)
  = [result_scored "b" 4.51; result_scored "a" 3.82] /\
  exists dropped,
    Permutation scored_sample
      (results (build_response (with_limit (query_sushi None) 2) scored_sample)
         ++ dropped).
Proof.
  assert (Hnan : no_nan score scored_sample) by (repeat constructor).
  assert (Hlim : 0 <= limit (with_limit (query_sushi None) 2)) by (cbv; discriminate).
  split; [exact Hnan|]. split; [exact Hlim|]. split; [vm_compute; reflexivity|].
  destruct (top_n_by_score (with_limit (query_sushi None) 2) scored_sample Hnan Hlim)
    as (dropped & Hp & _).
  exists dropped. exact Hp.
Defined.

(* ===================================================================== *)
(** ** Validation of the price filter                                      *)
(* ===================================================================== *)

Lemma occurs_cons c a s : occurs c (String a s) <-> a = c \/ occurs c s.
Proof. reflexivity. Qed.

Lemma occurs_str_remove c a s :
  occurs c s -> c <> a -> occurs c (str_remove a s).
Proof.
  intros Hc Hne. induction s as [|b s IH]; [destruct Hc|].
  apply occurs_cons in Hc. cbn [str_remove].
  destruct (Ascii.eqb_spec b a) as [->|_].
  - destruct Hc as [Hc|Hc]; [congruence | auto].
  - apply occurs_cons. destruct Hc as [Hc|Hc]; auto.
Qed.

Lemma str_split_nonempty sep s : str_split sep s <> [].
Proof.
  destruct s as [|a s]; cbn; [discriminate|].
  destruct (Ascii.eqb a sep); [discriminate|].
  destruct (str_split sep s); discriminate.
Qed.

Lemma occurs_str_split c sep s :
  occurs c s -> c <> sep ->
  exists part, In part (str_split sep s) /\ occurs c part.
Proof.
  intros Hc Hne. induction s as [|a s IH]; [destruct Hc|].
  apply occurs_cons in Hc. cbn [str_split].
  destruct (Ascii.eqb_spec a sep) as [->|_].
  - destruct Hc as [Hc|Hc]; [congruence|].
    destruct (IH Hc) as (part & Hin & Hp). exists part. split; [now right | exact Hp].
  - pose proof (str_split_nonempty sep s) as Hparts.
    destruct (str_split sep s) as [|p0 ps]; [congruence|].
    destruct Hc as [Hc|Hc].
    + exists (String a p0). split; [now left | apply occurs_cons; now left].
    + destruct (IH Hc) as (part & [<-|Hin] & Hp).
      * exists (String a p0). split; [now left | apply occurs_cons; now right].
      * exists part. split; [now right | exact Hp].
Qed.

Lemma valid_price_occurs part c :
  part ∈ valid_prices -> occurs c part -> In c ["1"; "2"; "3"; "4"]%char.
Proof.
  unfold valid_prices. rewrite !elem_of_union, !elem_of_singleton.
  intros [[[->| ->]| ->]| ->] [<-|[]]; cbn; auto.
Qed.

Lemma price_with_foreign_char_refused p c :
  occurs c p -> ~ In c price_alphabet -> price_accepted (Some p) = false.
Proof.
  intros Hc Hout.
  assert (c <> " "%char /\ c <> ","%char) as [Hsp Hco].
  { split; intros ->; apply Hout; cbn; tauto. }
  destruct p as [|a p']; [destruct Hc|]. cbn [price_accepted].
  apply bool_decide_eq_false. intros Hsub.
  destruct (occurs_str_split c "," (str_remove " " (String a p'))) as (part & Hin & Hp);
    [now apply occurs_str_remove | exact Hco |].
  assert (Hv : part ∈ valid_prices).
  { apply Hsub. unfold price_parts. apply elem_of_list_to_set.
    now apply list_elem_of_In. }
  apply Hout. pose proof (valid_price_occurs part c Hv Hp) as Hd.
  cbn in Hd |- *. tauto.
Qed.

(** C8.  A request whose price parameter contains a character other than
    1, 2, 3, 4, comma and space is refused with HTTP 400: the handler raises
    it before the cache is read, so no upstream call is made and the cache
    is left as it was; and that is the reply to every such request that
    FastAPI lets through to the handler. *)
Theorem malformed_price_rejected (env : Env) (cache : Cache) (q : Query)
    (p : string) (c : ascii) :
  q_price q = Some p -> occurs c p -> ~ In c price_alphabet ->
  get_top_places env cache q
  = {| result := Raise (HTTPException 400
                   "Invalid price format. Use comma-separated values: 1,2,3,4");
       cache_after := cache;
       upstream_calls := [] |}
  /\ forall raw, validate raw = Some q ->
       top env cache raw
       = (ReplyError 400 "Invalid price format. Use comma-separated values: 1,2,3,4",
          cache, []).
Proof.
  intros Hp Hc Hout.
  assert (H : get_top_places env cache q
              = {| result := Raise INVALID_PRICE; cache_after := cache;
                   upstream_calls := [] |}).
  { unfold get_top_places.
    rewrite Hp, (price_with_foreign_char_refused p c Hc Hout). reflexivity. }
  split; [exact H|].
  intros raw Hraw. unfold top. rewrite Hraw, H. reflexivity.
Qed.

Lemma malformed_price_rejected_witness :
  q_price (query_sushi (Some "1,5")) = Some "1,5" /\
  occurs "5" "1,5" /\ ~ In "5"%char price_alphabet /\
  get_top_places (env_answering [biz_established]) [] (query_sushi (Some "1,5"))
  = {| result := Raise (HTTPException 400
                   "Invalid price format. Use comma-separated values: 1,2,3,4");
       cache_after := [];
       upstream_calls := [] |}.
Proof.
  assert (Hc : occurs "5" "1,5") by (cbn; auto).
  assert (Hout : ~ In "5"%char price_alphabet).
  { cbn. intuition discriminate. }
  split; [reflexivity|]. split; [exact Hc|]. split; [exact Hout|].
  exact (proj1 (malformed_price_rejected (env_answering [biz_established]) []
                  (query_sushi (Some "1,5")) "1,5" "5" eq_refl Hc Hout)).
Defined.

(* ===================================================================== *)
(** ** The upstream client                                                 *)
(* ===================================================================== *)

Lemma length_str_prefix n s :
  String.length (str_prefix n s) = Nat.min n (String.length s).
Proof.
  unfold str_prefix. revert s.
  induction n as [|n IH]; intros [|a s]; cbn; auto.
Qed.

Lemma str_prefix_is_prefix n s : String.prefix (str_prefix n s) s = true.
Proof.
  unfold str_prefix. revert s.
  induction n as [|n IH]; intros [|a s]; cbn; auto.
  destruct (ascii_dec a a); [apply IH | congruence].
Qed.

(** C9, as stated, fails: the message of a transport failure is not cut
    to 200 characters.  A failure whose text has 250 characters gives an
    HTTP 502 whose detail carries all 250 of them. *)
Lemma transport_error_message_not_truncated :
  let msg := long_message in
  String.length msg = 250%nat /\
  str_prefix 200 msg <> msg /\
  snd (search_for (always (Failed msg)) (query_sushi None))
  = Raise (HTTPException 502 ("Yelp API request failed: " +:+ msg)) /\
  snd (search_for (always (Failed msg)) (query_sushi None))
  <> Raise (HTTPException 502 ("Yelp API request failed: " +:+ str_prefix 200 msg)) /\
  (200 < String.length ("Yelp API request failed: " +:+ msg))%nat.
Proof.
  cbv zeta. split; [reflexivity|]. split; [vm_compute; discriminate|].
  split; [reflexivity|]. split; [vm_compute; discriminate|].
  vm_compute. lia.
Qed.

(** C9, amended.  The upstream call is issued once, and its outcome is
    mapped as follows: status 429 to an HTTP 429 whose message asks to retry; any
    other status but 200 to an HTTP 502 whose message carries the status and
    the first 200 characters of the body; a timeout to an HTTP 504; any
    other transport failure to an HTTP 502 with the failure's message in
    full; and status 200 with a JSON object to the list under ["businesses"], the
    empty list when there is none. *)
Theorem upstream_outcomes_mapped (get : YelpParams -> GetOutcome) (q : Query) :
  fst (search_for get q) = [params_of q] /\
  (forall r, get (params_of q) = Responded r -> status_code r = 429 ->
     snd (search_for get q)
     = Raise (HTTPException 429
                "Yelp API rate limit exceeded. Please retry in a moment.")) /\
  (forall r, get (params_of q) = Responded r ->
     status_code r <> 429 -> status_code r <> 200 ->
     snd (search_for get q)
     = Raise (HTTPException 502
                ("Yelp API error: " +:+ str_of_int (status_code r) +:+ " - "
                   +:+ str_prefix 200 (text r))) /\
     (String.length (str_prefix 200 (text r)) <= 200)%nat /\
     String.prefix (str_prefix 200 (text r)) (text r) = true) /\
  (forall msg, get (params_of q) = TimedOut msg ->
     snd (search_for get q)
     = Raise (HTTPException 504 "Yelp API request timeout")) /\
  (forall msg, get (params_of q) = Failed msg ->
     snd (search_for get q)
     = Raise (HTTPException 502 ("Yelp API request failed: " +:+ msg))) /\
  (forall r businesses, get (params_of q) = Responded r -> status_code r = 200 ->
     json r = JsonObject businesses ->
     snd (search_for get q) = Return (default [] businesses)).
Proof.
  unfold search_for, search_yelp. fold (params_of q). cbn [fst snd].
  split; [reflexivity|]. split; [|split; [|split; [|split]]].
  - intros r -> ->. reflexivity.
  - intros r -> H429 H200.
    destruct (Z.eqb_spec (status_code r) 429); [contradiction|].
    destruct (Z.eqb_spec (status_code r) 200); [contradiction|]. cbn [negb].
    split; [reflexivity|]. split; [|apply str_prefix_is_prefix].
    rewrite length_str_prefix. apply Nat.le_min_l.
  - intros msg ->. reflexivity.
  - intros msg ->. reflexivity.
  - intros r bs -> -> ->. cbn. destruct bs; reflexivity.
Qed.

Lemma upstream_outcomes_mapped_witness :
  let q := query_sushi None in
  snd (search_for (always (Responded (response_with 429 "slow down"))) q)
  = Raise (HTTPException 429
             "Yelp API rate limit exceeded. Please retry in a moment.") /\
  snd (search_for (always (Responded (response_with 500 "oops"))) q)
  = Raise (HTTPException 502 "Yelp API error: 500 - oops") /\
  snd (search_for (always (TimedOut "read timed out")) q)
  = Raise (HTTPException 504 "Yelp API request timeout") /\
  snd (search_for (always (Failed "connection refused")) q)
  = Raise (HTTPException 502 "Yelp API request failed: connection refused") /\
  snd (search_for (requests_get (env_answering [biz_established])) q)
  = Return [biz_established].
Proof.
  intros q.
  destruct (upstream_outcomes_mapped
              (always (Responded (response_with 429 "slow down"))) q)
    as (_ & H429 & _).
  destruct (upstream_outcomes_mapped
              (always (Responded (response_with 500 "oops"))) q)
    as (_ & _ & H500 & _).
  destruct (upstream_outcomes_mapped (always (TimedOut "read timed out")) q)
    as (_ & _ & _ & Htime & _).
  destruct (upstream_outcomes_mapped (always (Failed "connection refused")) q)
    as (_ & _ & _ & _ & Hfail & _).
  destruct (upstream_outcomes_mapped
              (requests_get (env_answering [biz_established])) q)
    as (_ & _ & _ & _ & _ & H200).
  split; [exact (H429 _ eq_refl eq_refl)|].
  split; [refine (proj1 (H500 _ eq_refl _ _)); discriminate|].
  split; [exact (Htime _ eq_refl)|].
  split; [exact (Hfail _ eq_refl)|].
  exact (H200 _ _ eq_refl eq_refl eq_refl).
Defined.

(* ===================================================================== *)
(** ** The cache key                                                       *)
(* ===================================================================== *)

Lemma append_cancel_l (s a b : string) : s +:+ a = s +:+ b -> a = b.
Proof. induction s as [|c s IH]; cbn; [auto|]. intros [= H]. auto. Qed.

(** C7, as stated, fails: the two queries name the same price tiers, in a
    different order and with a space, and agree on everything else, yet
    their cache keys differ. *)
Lemma cache_key_keeps_price_text :
  same_normalized_query (query_sushi (Some "1,2")) (query_sushi (Some "2, 1")) /\
  cache_key (query_sushi (Some "1,2")) <> cache_key (query_sushi (Some "2, 1")).
Proof.
  split.
  - repeat split; vm_compute; reflexivity.
  - vm_compute. discriminate.
Qed.

(** C7, amended.  The cache key is the raw text of the query, the limit
    left out: two queries with equal term, center, radius and open-now flag
    have the same key exactly when their price texts (an absent price
    counting as empty) are equal, whatever their limits. *)
Theorem cache_key_of_equal_text (q1 q2 : Query) :
  term q1 = term q2 -> lat q1 = lat q2 -> lng q1 = lng q2 ->
  radius_m q1 = radius_m q2 -> open_now q1 = open_now q2 ->
  (cache_key q1 = cache_key q2 <-> price_text q1 = price_text q2).
Proof.
  intros Ht Hla Hln Hr Ho. unfold cache_key, price_text.
  rewrite Ht, Hla, Hln, Hr, Ho. split; [|now intros ->].
  intros H.
  repeat (apply append_cancel_l in H; apply (append_cancel_l "|") in H).
  exact H.
Qed.

Lemma cache_key_of_equal_text_witness :
  let q1 := query_sushi (Some "1,2") in
  let q2 := with_limit (query_sushi (Some "1,2")) 25 in
  term q1 = term q2 /\ lat q1 = lat q2 /\ lng q1 = lng q2 /\
  radius_m q1 = radius_m q2 /\ open_now q1 = open_now q2 /\
  price_text q1 = price_text q2 /\ cache_key q1 = cache_key q2 /\
  cache_key q1 = "sushi|43.6532|-79.3832|5000|True|1,2".
Proof.
  intros q1 q2. do 6 (split; [reflexivity|]).
  split; [|vm_compute; reflexivity].
  exact (proj2 (cache_key_of_equal_text q1 q2 eq_refl eq_refl eq_refl eq_refl eq_refl)
           eq_refl).
Defined.

(* ===================================================================== *)
(** ** The route declaration                                               *)
(* ===================================================================== *)

(** C10, as stated, fails: a request with an empty term and every other
    parameter in range is not rejected; on a cold cache the empty term is
    sent upstream and the reply is a 200. *)
Lemma empty_term_reaches_upstream :
  validate raw_empty_term <> None /\
  exists body cache',
    top (env_answering []) [] raw_empty_term
    = (Reply200 body, cache',
       [yelp_params "" 43.6532 (-79.3832) 5000 10 false None]) /\
    resp_term body = "" /\
    ~ client_error (Reply200 body).
Proof.
  split; [vm_compute; discriminate|].
  do 2 eexists. split; [vm_compute; reflexivity|].
  split; [reflexivity | intros []].
Qed.

(** C10, amended.  The term is required: a request without a term is
    rejected with a client error (422) before the handler runs, so without
    an upstream call and with the cache untouched.  What the term says is
    not checked: a request is accepted with an empty term exactly when it is
    accepted with any other. *)
Theorem term_required_not_checked :
  (forall env cache raw, raw_term raw = None ->
     top env cache raw = (ReplyError 422 "Unprocessable Entity", cache, []) /\
     client_error (fst (fst (top env cache raw)))) /\
  (forall raw t,
     is_Some (validate (with_term raw (Some t)))
     <-> is_Some (validate (with_term raw (Some "")))).
Proof.
  split.
  - intros env cache raw Hnone. unfold top, validate. rewrite Hnone. cbn.
    split; [reflexivity | lia].
  - intros raw t. unfold validate, with_term. cbn.
    destruct (raw_lat raw), (raw_lng raw); cbn; try tauto.
    match goal with |- context [if ?b then _ else _] => destruct b end;
      split; intros [x Hx]; try discriminate; eauto.
Qed.

Lemma term_required_not_checked_witness :
  raw_term (with_term raw_empty_term None) = None /\
  top (env_answering []) [] (with_term raw_empty_term None)
  = (ReplyError 422 "Unprocessable Entity", [], []).
Proof.
  split; [reflexivity|].
  exact (proj1 (proj1 term_required_not_checked (env_answering []) []
                  (with_term raw_empty_term None) eq_refl)).
Defined.

(* ===================================================================== *)
(** ** The response cache                                                  *)
(* ===================================================================== *)

Section CacheFacts.
Context {V : Type}.
Implicit Types (links older before after : list (Cachetools.link V)).
Implicit Types (l o : Cachetools.link V).

Lemma getlink_none k links :
  Cachetools.getlink k links = None <->
  forall l, In l links -> String.eqb (Cachetools.key l) k = false.
Proof.
  unfold Cachetools.getlink. split.
  - intros H l Hl. exact (find_none _ _ H l Hl).
  - induction links as [|l links IH]; [reflexivity|]. intros H. cbn.
    rewrite (H l (or_introl eq_refl)). apply IH. intros l' Hl'. apply H. now right.
Qed.

Lemma getlink_app_miss k older links :
  Cachetools.getlink k older = None ->
  Cachetools.getlink k (older ++ links) = Cachetools.getlink k links.
Proof.
  unfold Cachetools.getlink. induction older as [|l older IH]; [reflexivity|].
  cbn. destruct (String.eqb (Cachetools.key l) k); [discriminate | exact IH].
Qed.

Lemma getlink_without k links :
  Cachetools.getlink k (Cachetools.without k links) = None.
Proof.
  apply getlink_none. intros l Hl. unfold Cachetools.without in Hl.
  apply List.filter_In in Hl as [_ Hl]. now apply negb_true_iff in Hl.
Qed.

Lemma getlink_skipn k n links :
  Cachetools.getlink k links = None ->
  Cachetools.getlink k (skipn n links) = None.
Proof.
  rewrite !getlink_none. intros H l Hl. apply H.
  rewrite <- (firstn_skipn n links). apply in_or_app. now right.
Qed.

Lemma without_miss k links :
  Cachetools.getlink k links = None -> Cachetools.without k links = links.
Proof.
  rewrite getlink_none. intros H. unfold Cachetools.without.
  induction links as [|l links IH]; [reflexivity|]. cbn.
  rewrite (H l (or_introl eq_refl)). cbn. f_equal. apply IH.
  intros l' Hl'. apply H. now right.
Qed.

(** Storing puts the link last, as the only one with its key. *)
Lemma setitem_stores maxsize ttl now k v links :
  1 <= maxsize ->
  exists older,
    Cachetools.setitem maxsize ttl now k v links
    = (Return tt, older ++ [Cachetools.Link k v (now + ttl)%float]) /\
    Cachetools.getlink k older = None.
Proof.
  intros Hmax. unfold Cachetools.setitem.
  destruct (Z.ltb_spec maxsize 1); [lia|].
  destruct (Cachetools.getlink k (Cachetools.expire now links)) eqn:E.
  - eexists. split; [reflexivity | apply getlink_without].
  - eexists. split; [reflexivity | now apply getlink_skipn].
Qed.

(** Reading a key whose only link is the last one. *)
Lemma lookup_last k v e older :
  Cachetools.getlink k older = None ->
  let links := older ++ [Cachetools.Link k v e] in
  forall now,
    Cachetools.contains now k links = PrimFloat.ltb now e /\
    Cachetools.getitem now k links
    = (if PrimFloat.ltb now e then Return v else Raise (KeyError k), links).
Proof.
  intros Hold links now.
  assert (Hget : Cachetools.getlink k links = Some (Cachetools.Link k v e)).
  { unfold links. rewrite (getlink_app_miss _ _ _ Hold).
    unfold Cachetools.getlink. cbn. now rewrite String.eqb_refl. }
  unfold Cachetools.contains, Cachetools.getitem, Cachetools.move_to_end.
  rewrite Hget. split; [reflexivity|]. f_equal.
  unfold links, Cachetools.without. rewrite List.filter_app. cbn.
  rewrite String.eqb_refl. cbn. rewrite app_nil_r.
  f_equal. now apply without_miss.
Qed.
Lemma getlink_some_key k links l :
  Cachetools.getlink k links = Some l -> Cachetools.key l = k.
Proof.
  intros H. apply find_some in H as [_ H]. now apply String.eqb_eq.
Qed.

Lemma getlink_filter_none k (P : Cachetools.link V -> bool) links :
  Cachetools.getlink k links = None ->
  Cachetools.getlink k (List.filter P links) = None.
Proof.
  rewrite !getlink_none. intros H l Hl. apply H.
  now apply List.filter_In in Hl as [Hl _].
Qed.

Lemma getlink_around o before after :
  around o before after ->
  Cachetools.getlink (Cachetools.key o) (before ++ o :: after) = Some o.
Proof.
  intros [Hb _]. rewrite (getlink_app_miss _ _ _ Hb).
  unfold Cachetools.getlink. cbn. now rewrite String.eqb_refl.
Qed.

Lemma without_around o before after :
  around o before after ->
  Cachetools.without (Cachetools.key o) (before ++ o :: after) = before ++ after.
Proof.
  intros [Hb Ha]. unfold Cachetools.without. rewrite List.filter_app. cbn.
  rewrite String.eqb_refl. cbn.
  f_equal; now apply without_miss.
Qed.

Lemma without_other o k before after :
  k <> Cachetools.key o ->
  Cachetools.without k (before ++ o :: after)
  = Cachetools.without k before ++ o :: Cachetools.without k after.
Proof.
  intros Hk. unfold Cachetools.without. rewrite List.filter_app. cbn.
  destruct (String.eqb_spec (Cachetools.key o) k); [congruence | reflexivity].
Qed.

Lemma expire_around now o before after :
  Cachetools.fresh now o = true ->
  Cachetools.expire now (before ++ o :: after)
  = Cachetools.expire now before ++ o :: Cachetools.expire now after.
Proof.
  intros Hf. unfold Cachetools.expire. rewrite List.filter_app.
  cbn [List.filter]. now rewrite Hf.
Qed.

Lemma length_filter_le (P : Cachetools.link V -> bool) links :
  (length (List.filter P links) <= length links)%nat.
Proof. induction links as [|l links IH]; cbn; [lia|]. destruct (P l); cbn; lia. Qed.
End CacheFacts.

(** The handler's price guard and cache key do not look at the limit. *)
Lemma cache_key_with_limit q n : cache_key (with_limit q n) = cache_key q.
Proof. reflexivity. Qed.

Lemma kept_hit k resp e n cache env q :
  kept k resp e n cache ->
  cache_key q = k -> price_accepted (q_price q) = true ->
  PrimFloat.ltb (now_contains env) e = true ->
  PrimFloat.ltb (now_getitem env) e = true ->
  result (get_top_places env cache q) = Return resp /\
  upstream_calls (get_top_places env cache q) = [] /\
  kept k resp e 0 (cache_after (get_top_places env cache q)).
Proof.
  intros (before & after & -> & Har & Hlen) Hk Hp Hc Hg.
  pose proof (getlink_around _ _ _ Har) as Hget. cbn [Cachetools.key] in Hget.
  unfold get_top_places. rewrite Hp, Hk. cbn [negb].
  unfold Cachetools.contains, Cachetools.getitem, Cachetools.move_to_end.
  rewrite Hget. unfold Cachetools.fresh. cbn [Cachetools.expires].
  rewrite Hc, Hg. cbn [result upstream_calls cache_after Cachetools.value].
  split; [reflexivity|]. split; [reflexivity|].
  pose proof (without_around _ _ _ Har) as Hw. cbn [Cachetools.key] in Hw.
  rewrite Hw. destruct Har as [Hb Ha]. cbn [Cachetools.key] in Hb, Ha.
  exists (before ++ after), []. split; [now rewrite <- app_assoc|].
  split; [|cbn; lia]. split; cbn [Cachetools.key]; [|reflexivity].
  rewrite (getlink_app_miss _ _ _ Hb). exact Ha.
Qed.

Lemma kept_step k resp e n cache env q :
  kept k resp e n cache -> (n < 499)%nat ->
  PrimFloat.ltb (now_contains env) e = true ->
  PrimFloat.ltb (now_setitem env) e = true ->
  kept k resp e (S n) (cache_after (get_top_places env cache q)).
Proof.
  intros Hkept Hn Hc Hs.
  assert (Hweak : kept k resp e (S n) cache).
  { destruct Hkept as (b & a & ? & ? & ?). exists b, a.
    split; [assumption|]. split; [assumption | lia]. }
  destruct Hkept as (before & after & -> & Har & Hlen).
  pose proof (getlink_around _ _ _ Har) as Hget. cbn [Cachetools.key] in Hget.
  pose proof Har as [Hb Ha]. cbn [Cachetools.key] in Hb, Ha.
  set (o := Cachetools.Link k resp e) in *.
  unfold get_top_places.
  destruct (price_accepted (q_price q)); cbn [negb cache_after]; [|exact Hweak].
  destruct (String.eqb_spec (cache_key q) k) as [->|Hne].
  - (* the same key: a hit, which moves the link to the end *)
    unfold Cachetools.contains, Cachetools.getitem, Cachetools.move_to_end.
    rewrite Hget. unfold Cachetools.fresh at 1. cbn [Cachetools.expires o].
    rewrite Hc. cbn [cache_after].
    pose proof (without_around _ _ _ Har) as Hw. cbn [Cachetools.key o] in Hw.
    rewrite Hw. exists (before ++ after), []. split; [rewrite <- ?app_assoc; reflexivity|].
    split; [|cbn; lia]. split; cbn [Cachetools.key o]; [|reflexivity].
    rewrite (getlink_app_miss _ _ _ Hb). exact Ha.
  - destruct (Cachetools.contains (now_contains env) (cache_key q) (before ++ o :: after))
      eqn:Hcon.
    + (* another key, a hit: its link moves behind ours *)
      unfold Cachetools.contains in Hcon. unfold Cachetools.getitem, Cachetools.move_to_end.
      destruct (Cachetools.getlink (cache_key q) (before ++ o :: after)) as [l'|] eqn:Hl';
        [|discriminate].
      cbn [cache_after]. apply getlink_some_key in Hl'.
      rewrite without_other by (cbn; congruence).
      exists (Cachetools.without (cache_key q) before),
             (Cachetools.without (cache_key q) after ++ [l']).
      split; [rewrite <- ?app_assoc; reflexivity|]. split.
      * split; cbn [Cachetools.key o].
        -- now apply getlink_filter_none.
        -- rewrite getlink_app_miss by now apply getlink_filter_none.
           unfold Cachetools.getlink. cbn. rewrite Hl'.
           destruct (String.eqb_spec (cache_key q) k); [congruence | reflexivity].
      * rewrite length_app. cbn.
        pose proof (length_filter_le (fun l => negb (String.eqb (Cachetools.key l) (cache_key q))) after).
        unfold Cachetools.without. lia.
    + (* another key, a miss *)
      destruct (search_yelp _ _ _ _ _ _ _ _) as [calls fetched].
      destruct (fetched ≫= for_each score_business) as [scored|err];
        cbn [cache_after]; [|exact Hweak].
      unfold Cachetools.setitem, CACHE_MAXSIZE. cbn [Z.ltb Z.compare Pos.compare Pos.compare_cont].
      rewrite (expire_around _ o) by exact Hs.
      set (b' := Cachetools.expire (now_setitem env) before).
      set (a' := Cachetools.expire (now_setitem env) after).
      assert (Hb' : Cachetools.getlink k b' = None) by now apply getlink_filter_none.
      assert (Ha' : Cachetools.getlink k a' = None) by now apply getlink_filter_none.
      assert (Hla : (length a' <= n)%nat).
      { pose proof (length_filter_le (Cachetools.fresh (now_setitem env)) after).
        unfold a', Cachetools.expire. lia. }
      set (new := Cachetools.Link (cache_key q) (build_response q scored)
                    (now_setitem env + CACHE_TTL)%float).
      assert (Hnew : Cachetools.getlink k [new] = None).
      { unfold Cachetools.getlink. cbn.
        destruct (String.eqb_spec (cache_key q) k); [congruence | reflexivity]. }
      destruct (Cachetools.getlink (cache_key q) (b' ++ o :: a')).
      * cbn [cache_after]. rewrite without_other by (cbn; congruence).
        exists (Cachetools.without (cache_key q) b'),
               (Cachetools.without (cache_key q) a' ++ [new]).
        split; [rewrite <- ?app_assoc; reflexivity|]. split.
        -- split; cbn [Cachetools.key o]; [now apply getlink_filter_none|].
           rewrite getlink_app_miss by now apply getlink_filter_none. exact Hnew.
        -- rewrite length_app. cbn.
           pose proof (length_filter_le (fun l => negb (String.eqb (Cachetools.key l) (cache_key q))) a').
           unfold Cachetools.without. lia.
      * cbn [cache_after].
        set (d := Z.to_nat (Z.of_nat (length (b' ++ o :: a')) + 1 - 500)).
        assert (Hd : (d <= length b')%nat).
        { unfold d. rewrite length_app. cbn [length]. lia. }
        rewrite skipn_app.
        replace (d - length b')%nat with 0%nat by lia. cbn [skipn].
        exists (skipn d b'), (a' ++ [new]).
        split; [rewrite <- ?app_assoc; reflexivity|]. split.
        -- split; cbn [Cachetools.key o]; [now apply getlink_skipn|].
           rewrite getlink_app_miss by exact Ha'. exact Hnew.
        -- rewrite length_app. cbn. lia.
Qed.

(** A request that went upstream and succeeded has stored its response, as
    the last link of the cache. *)
Lemma first_call_stores (env : Env) (cache : Cache) (q : Query)
    (resp : TopPlacesResponse) :
  let o := get_top_places env cache q in
  result o = Return resp -> upstream_calls o <> [] ->
  price_accepted (q_price q) = true /\
  (exists scored, resp = build_response q scored) /\
  exists older,
    cache_after o
    = older ++ [Cachetools.Link (cache_key q) resp (fresh_until (now_setitem env))] /\
    Cachetools.getlink (cache_key q) older = None.
Proof.
  intros o. unfold o, get_top_places.
  destruct (price_accepted (q_price q)); cbn [negb]; [|discriminate].
  destruct (Cachetools.contains (now_contains env) (cache_key q) cache).
  { destruct (Cachetools.getitem _ _ _). cbn. congruence. }
  destruct (search_yelp _ _ _ _ _ _ _ _) as [calls fetched].
  destruct (fetched ≫= for_each score_business) as [scored|e]; [|discriminate].
  destruct (setitem_stores CACHE_MAXSIZE CACHE_TTL (now_setitem env)
              (cache_key q) (build_response q scored) cache)
    as (older & -> & Hold); [unfold CACHE_MAXSIZE; lia|].
  cbn. intros [= <-] _. split; [reflexivity|]. split; [now exists scored|].
  now exists older.
Qed.

Lemma kept_run k resp e n reqs cache :
  kept k resp e n cache -> (n + length reqs <= 499)%nat ->
  Forall (fun r => PrimFloat.ltb (now_contains (fst r)) e = true /\
                   PrimFloat.ltb (now_setitem (fst r)) e = true) reqs ->
  kept k resp e (n + length reqs) (run_requests reqs cache).
Proof.
  intros Hk Hn Hreqs. revert n cache Hk Hn.
  induction Hreqs as [|r reqs [Hc Hs] _ IH]; intros n cache Hk Hn.
  - cbn. now rewrite Nat.add_0_r.
  - cbn [run_requests fold_left length] in *.
    replace (n + S (length reqs))%nat with (S n + length reqs)%nat by lia.
    apply IH; [|lia]. apply kept_step; [assumption | lia | assumption..].
Qed.

(** The stored response outlives up to 499 other requests: a request with
    the same key and price, whose cache reads come before the link expires,
    gets it from the cache. *)
Lemma stored_response_survives (env1 env2 : Env) (cache : Cache) (q1 q2 : Query)
    (resp : TopPlacesResponse) (between : list (Env * Query)) :
  cache_key q2 = cache_key q1 -> q_price q2 = q_price q1 ->
  let o1 := get_top_places env1 cache q1 in
  result o1 = Return resp ->
  upstream_calls o1 <> [] ->
  (length between <= 499)%nat ->
  Forall (reads_before env2) between ->
  PrimFloat.ltb (now_contains env2) (fresh_until (now_setitem env1)) = true ->
  PrimFloat.ltb (now_getitem env2) (fresh_until (now_setitem env1)) = true ->
  let o2 := get_top_places env2 (run_requests between (cache_after o1)) q2 in
  upstream_calls o2 = [] /\ result o2 = Return resp /\
  (between = [] -> cache_after o2 = cache_after o1) /\
  exists scored, resp = build_response q1 scored.
Proof.
  intros Hkey Hprice o1 Hres Hcalls Hlen Hmono Hc Hg o2.
  destruct (first_call_stores env1 cache q1 resp Hres Hcalls)
    as (Hp & Hscored & older & Hcache & Hold).
  fold o1 in Hcache.
  assert (Hkept : kept (cache_key q1) resp (fresh_until (now_setitem env1)) 0
                    (cache_after o1)).
  { exists older, []. split; [exact Hcache|]. split; [|cbn; lia].
    split; [exact Hold | reflexivity]. }
  assert (Hfresh : Forall (fun r =>
            PrimFloat.ltb (now_contains (fst r)) (fresh_until (now_setitem env1)) = true /\
            PrimFloat.ltb (now_setitem (fst r)) (fresh_until (now_setitem env1)) = true)
            between).
  { eapply Forall_impl; [exact Hmono|]. intros r [H1 H2].
    split; eapply float_leb_ltb_trans; eassumption. }
  pose proof (kept_run _ _ _ 0 between _ Hkept ltac:(cbn; lia) Hfresh) as Hrun.
  rewrite <- Hprice in Hp.
  destruct (kept_hit _ _ _ _ _ env2 q2 Hrun Hkey Hp Hc Hg) as (Hr & Hu & _).
  split; [exact Hu|]. split; [exact Hr|]. split; [|exact Hscored].
  intros ->. unfold o2. cbn [run_requests fold_left].
  unfold get_top_places. rewrite Hkey, Hp. cbn [negb]. rewrite Hcache.
  destruct (lookup_last (cache_key q1) resp (fresh_until (now_setitem env1))
              older Hold (now_contains env2)) as [-> _].
  destruct (lookup_last (cache_key q1) resp (fresh_until (now_setitem env1))
              older Hold (now_getitem env2)) as [_ ->].
  rewrite Hc, Hg. reflexivity.
Qed.

(** C3.  After a call that went upstream and succeeded, a second call with
    identical parameters whose cache reads come within the TTL of the store
    makes no upstream call and returns the stored response unchanged.  Up to
    499 other requests may have been handled in between; when there were
    none, the cache stays as the first call left it. *)
Theorem repeated_query_served_from_cache (env1 env2 : Env) (cache : Cache)
    (q : Query) (resp : TopPlacesResponse) (between : list (Env * Query)) :
  let o1 := get_top_places env1 cache q in
  result o1 = Return resp ->
  upstream_calls o1 <> [] ->
  (length between <= 499)%nat ->
  Forall (reads_before env2) between ->
  PrimFloat.ltb (now_contains env2) (fresh_until (now_setitem env1)) = true ->
  PrimFloat.ltb (now_getitem env2) (fresh_until (now_setitem env1)) = true ->
  let o2 := get_top_places env2 (run_requests between (cache_after o1)) q in
  upstream_calls o2 = [] /\ result o2 = Return resp /\
  (between = [] -> cache_after o2 = cache_after o1).
Proof.
  intros o1 Hres Hcalls Hlen Hmono Hc Hg o2.
  destruct (stored_response_survives env1 env2 cache q q resp between eq_refl eq_refl
              Hres Hcalls Hlen Hmono Hc Hg) as (H1 & H2 & H3 & _).
  auto.
Qed.

Lemma repeated_query_served_from_cache_witness :
  let env1 := env_answering [biz_three_reviews; biz_established] in
  let q := query_sushi None in
  let between := [(env_between, query_pizza)] in
  let o1 := get_top_places env1 [] q in
  let o2 := get_top_places env_later (run_requests between (cache_after o1)) q in
  exists resp,
    result o1 = Return resp /\
    upstream_calls o1 = [params_of q] /\
    (length between <= 499)%nat /\
    Forall (reads_before env_later) between /\
    PrimFloat.ltb (now_contains env_later) (fresh_until (now_setitem env1)) = true /\
    PrimFloat.ltb (now_getitem env_later) (fresh_until (now_setitem env1)) = true /\
    upstream_calls o2 = [] /\ result o2 = Return resp /\
    map name (results resp) = ["Old Place"; "New Place"] /\
    map score (results resp) = [4.51%float; 3.82%float].
Proof.
  intros env1 q between o1 o2. eexists.
  split; [vm_compute; reflexivity|].
  split; [reflexivity|].
  assert (Hlen : (length between <= 499)%nat) by (cbn; lia).
  assert (Hmono : Forall (reads_before env_later) between).
  { repeat constructor. }
  split; [exact Hlen|]. split; [exact Hmono|].
  split; [reflexivity|]. split; [reflexivity|].
  assert (Hcalls : upstream_calls o1 <> []) by discriminate.
  destruct (repeated_query_served_from_cache env1 env_later [] q _ between eq_refl
              Hcalls Hlen Hmono eq_refl eq_refl) as (H1 & H2 & _).
  split; [exact H1|]. split; [exact H2|].
  split; vm_compute; reflexivity.
Defined.

(** C4.  The cache key leaves the limit out: after a call that went
    upstream and succeeded, a call that differs from it only in the limit,
    with its cache reads within the TTL of the store (and up to 499 other
    requests in between), makes no upstream call and returns the response
    stored for the first call, which was cut to the first call's limit. *)
Theorem limit_not_in_cache_key (env1 env2 : Env) (cache : Cache) (q : Query)
    (n : Z) (resp : TopPlacesResponse) (between : list (Env * Query)) :
  let o1 := get_top_places env1 cache q in
  result o1 = Return resp ->
  upstream_calls o1 <> [] ->
  (length between <= 499)%nat ->
  Forall (reads_before env2) between ->
  PrimFloat.ltb (now_contains env2) (fresh_until (now_setitem env1)) = true ->
  PrimFloat.ltb (now_getitem env2) (fresh_until (now_setitem env1)) = true ->
  let o2 := get_top_places env2 (run_requests between (cache_after o1))
              (with_limit q n) in
  cache_key (with_limit q n) = cache_key q /\
  upstream_calls o2 = [] /\ result o2 = Return resp /\
  (exists scored,
     results resp = slice_to (sort_reverse score scored) (limit q)) /\
  (0 <= limit q -> count resp <= limit q).
Proof.
  intros o1 Hres Hcalls Hlen Hmono Hc Hg o2.
  destruct (stored_response_survives env1 env2 cache q (with_limit q n) resp between
              eq_refl eq_refl Hres Hcalls Hlen Hmono Hc Hg)
    as (H1 & H2 & _ & scored & ->).
  split; [apply cache_key_with_limit|]. split; [exact H1|]. split; [exact H2|].
  split; [now exists scored|].
  intros Hlim. unfold build_response. cbn [count].
  rewrite (slice_to_firstn _ _ Hlim), length_firstn. lia.
Qed.

Lemma limit_not_in_cache_key_witness :
  let env1 := env_answering [biz_three_reviews; biz_established; biz_no_count] in
  let q := with_limit (query_sushi None) 2 in
  let o1 := get_top_places env1 [] q in
  let o2 := get_top_places env_later (run_requests [] (cache_after o1))
              (with_limit q 50) in
  exists resp,
    result o1 = Return resp /\
    upstream_calls o1 = [params_of q] /\
    PrimFloat.ltb (now_contains env_later) (fresh_until (now_setitem env1)) = true /\
    PrimFloat.ltb (now_getitem env_later) (fresh_until (now_setitem env1)) = true /\
    upstream_calls o2 = [] /\ result o2 = Return resp /\
    count resp = 2.
Proof.
  intros env1 q o1 o2. eexists.
  split; [vm_compute; reflexivity|].
  split; [reflexivity|]. split; [reflexivity|]. split; [reflexivity|].
  assert (Hcalls : upstream_calls o1 <> []) by discriminate.
  destruct (limit_not_in_cache_key env1 env_later [] q 50 _ [] eq_refl Hcalls
              ltac:(cbn; lia) ltac:(constructor) eq_refl eq_refl)
    as (_ & H1 & H2 & _).
  split; [exact H1|]. split; [exact H2|]. reflexivity.
Defined.

(* ===================================================================== *)
(** ** More on the scorer and the upstream request                        *)
(* ===================================================================== *)

Lemma overflow_threshold_above_weights : 152 <= overflow_threshold.
Proof. apply Z.leb_le. vm_compute. reflexivity. Qed.

Lemma truediv_bounded a b :
  b <> 0 -> Z.abs a <= 151 * Z.abs b -> truediv a b = Return (nearest_quot a b).
Proof.
  intros Hb Ha. unfold truediv.
  destruct (Z.eqb_spec b 0) as [|_]; [contradiction|].
  pose proof overflow_threshold_above_weights as HT.
  destruct (Z.leb_spec (overflow_threshold * Z.abs b) (Z.abs a)) as [Hle|_];
    [|reflexivity].
  exfalso. revert HT Hle. generalize overflow_threshold. intros T HT Hle. nia.
Qed.

Lemma score_off_the_pole R v :
  v <> -150 ->
  calculate_bayesian_score R v
  = Return (weighted_average PRIOR_RATING DAMPING_FACTOR R v).
Proof.
  intros Hv. unfold calculate_bayesian_score, weighted_average, DAMPING_FACTOR.
  rewrite !truediv_bounded by lia. reflexivity.
Qed.

(** X1.  The scorer returns a float for every review count but -150, where
    the denominator [v + m] is zero and it raises [ZeroDivisionError]; it
    raises nothing else, whatever the rating. *)
Theorem scorer_fails_only_at_zero_denominator (R : float) (v : Z) :
  (v = -150 -> calculate_bayesian_score R v = Raise ZeroDivisionError) /\
  (v <> -150 ->
   calculate_bayesian_score R v
   = Return (weighted_average PRIOR_RATING DAMPING_FACTOR R v)).
Proof.
  split.
  - intros ->. reflexivity.
  - apply score_off_the_pole.
Qed.

Lemma scorer_fails_only_at_zero_denominator_witness :
  calculate_bayesian_score 4.5 (-150) = Raise ZeroDivisionError /\
  calculate_bayesian_score 4.5 (-151)
  = Return (weighted_average PRIOR_RATING DAMPING_FACTOR 4.5 (-151)).
Proof.
  destruct (scorer_fails_only_at_zero_denominator 4.5 (-150)) as [H1 _].
  destruct (scorer_fails_only_at_zero_denominator 4.5 (-151)) as [_ H2].
  split; [exact (H1 eq_refl) | apply H2; discriminate].
Defined.

Lemma validate_some raw q :
  validate raw = Some q ->
  raw_term raw = Some (term q) /\ raw_lat raw = Some (lat q) /\
  raw_lng raw = Some (lng q) /\ q_price q = raw_price raw /\
  float_between (-90) 90 (lat q) = true /\
  float_between (-180) 180 (lng q) = true /\
  100 <= radius_m q <= 40000 /\ 1 <= limit q <= 50.
Proof.
  unfold validate, int_between.
  destruct (raw_term raw) as [t|]; [|discriminate].
  destruct (raw_lat raw) as [la|]; [|discriminate].
  destruct (raw_lng raw) as [ln|]; [|discriminate]. cbn.
  destruct (float_between (-90) 90 la) eqn:Hla; [|discriminate].
  destruct (float_between (-180) 180 ln) eqn:Hln; [|discriminate]. cbn.
  destruct (Z.leb_spec 100 (default 5000 (raw_radius_m raw))); [|discriminate].
  destruct (Z.leb_spec (default 5000 (raw_radius_m raw)) 40000); [|discriminate].
  destruct (Z.leb_spec 1 (default 10 (raw_limit raw))); [|discriminate].
  destruct (Z.leb_spec (default 10 (raw_limit raw)) 50); [|discriminate].
  cbn. intros [= <-]. cbn. repeat split; auto.
Qed.

(** X2.  The upstream request never asks for a radius above 40000 or for
    more than 50 results.  For a request that passed the declared checks the
    radius goes upstream unchanged and the number asked for is five times
    the display limit, capped at 50: never fewer than the limit. *)
Theorem upstream_request_shaping (q : Query) :
  p_radius (params_of q) <= 40000 /\ p_limit (params_of q) <= 50 /\
  (forall raw, validate raw = Some q ->
     p_radius (params_of q) = radius_m q /\
     p_limit (params_of q) = Z.min (5 * limit q) 50 /\
     limit q <= p_limit (params_of q) /\ 5 <= p_limit (params_of q)).
Proof.
  unfold params_of, yelp_params. cbn [p_radius p_limit].
  split; [lia|]. split; [lia|].
  intros raw (_ & _ & _ & _ & _ & _ & Hr & Hl)%validate_some. lia.
Qed.

Lemma upstream_request_shaping_witness :
  validate raw_empty_term = Some query_default /\
  p_radius (params_of query_default) = 5000 /\
  p_limit (params_of query_default) = 50.
Proof.
  assert (Hv : validate raw_empty_term = Some query_default) by reflexivity.
  destruct (upstream_request_shaping query_default) as (_ & _ & H).
  destruct (H raw_empty_term Hv) as (H1 & H2 & _).
  split; [exact Hv|]. split; [exact H1 | exact H2].
Defined.

Lemma str_remove_free c s : free_of c (str_remove c s).
Proof.
  unfold free_of. induction s as [|a s IH]; [intros []|]. cbn [str_remove].
  destruct (Ascii.eqb_spec a c) as [->|Hne]; [exact IH|].
  intros [H|H]%occurs_cons; [congruence | auto].
Qed.

(** X3.  A price goes upstream only when the request has a non-empty one,
    and then with every space removed; the open-now flag goes upstream only
    when it is set. *)
Theorem upstream_price_has_no_space (q : Query) :
  (forall s, p_price (params_of q) = Some s ->
     free_of " " s /\
     exists p, q_price q = Some p /\ p <> "" /\ s = str_remove " " p) /\
  (q_price q = None \/ q_price q = Some "" -> p_price (params_of q) = None) /\
  (p_open_now (params_of q) = if open_now q then Some true else None).
Proof.
  unfold params_of, yelp_params. cbn [p_price p_open_now].
  split; [|split; [|reflexivity]].
  - intros s. destruct (q_price q) as [[|a p]|]; [discriminate| |discriminate].
    intros H.
    assert (H' : Some (str_remove " " (String a p)) = Some s) by exact H.
    injection H' as <-. split; [exact (str_remove_free " " (String a p))|].
    exists (String a p). split; [reflexivity|]. split; [discriminate | reflexivity].
  - intros [-> | ->]; reflexivity.
Qed.

Lemma upstream_price_has_no_space_witness :
  p_price (params_of query_pizza) = Some "1,2" /\
  free_of " " "1,2" /\
  p_price (params_of (with_price query_pizza (Some ""))) = None.
Proof.
  destruct (upstream_price_has_no_space query_pizza) as (H & _ & _).
  destruct (upstream_price_has_no_space (with_price query_pizza (Some "")))
    as (_ & H' & _).
  split; [reflexivity|].
  split; [exact (proj1 (H "1,2" eq_refl)) | apply H'; now right].
Defined.

Lemma str_join_split sep s :
  str_join (String sep "") (str_split sep s) = s.
Proof.
  unfold str_join. induction s as [|a s IH]; [reflexivity|]. cbn [str_split].
  pose proof (str_split_nonempty sep s) as Hne.
  destruct (Ascii.eqb_spec a sep) as [->|_].
  - destruct (str_split sep s) as [|p0 ps]; [congruence|].
    cbn [String.concat] in *. cbn. now rewrite IH.
  - destruct (str_split sep s) as [|p0 ps]; [congruence|].
    destruct ps as [|p1 ps]; cbn [String.concat] in *; cbn; now rewrite <- IH.
Qed.

Lemma str_split_free sep t : free_of sep t -> str_split sep t = [t].
Proof.
  unfold free_of. induction t as [|a t IH]; [reflexivity|]. intros Hf.
  cbn [str_split]. destruct (Ascii.eqb_spec a sep) as [->|_].
  - exfalso. apply Hf. apply occurs_cons. now left.
  - rewrite IH; [reflexivity|]. intros H. apply Hf. apply occurs_cons. now right.
Qed.

Lemma str_split_app sep t rest :
  free_of sep t ->
  str_split sep (t +:+ String sep rest) = t :: str_split sep rest.
Proof.
  unfold free_of. induction t as [|a t IH]; intros Hf.
  - change (str_split sep (String sep rest) = "" :: str_split sep rest).
    cbn [str_split]. now rewrite Ascii.eqb_refl.
  - change (str_split sep (String a (t +:+ String sep rest))
            = String a t :: str_split sep rest).
    cbn [str_split]. destruct (Ascii.eqb_spec a sep) as [->|_].
    + exfalso. apply Hf. apply occurs_cons. now left.
    + rewrite IH; [reflexivity|]. intros H. apply Hf. apply occurs_cons. now right.
Qed.

Lemma str_split_join sep ts :
  ts <> [] -> Forall (free_of sep) ts ->
  str_split sep (str_join (String sep "") ts) = ts.
Proof.
  unfold str_join. intros Hne Hf. induction Hf as [|t ts Ht Hts IH]; [congruence|].
  destruct ts as [|t' ts]; [now apply str_split_free|].
  assert (E : String.concat (String sep "") (t :: t' :: ts)
              = t +:+ String sep (String.concat (String sep "") (t' :: ts)))
    by reflexivity.
  rewrite E, str_split_app by exact Ht. f_equal. apply IH. discriminate.
Qed.

Lemma price_parts_valid s :
  list_to_set (str_split "," s) ⊆ valid_prices <->
  Forall (fun t => t ∈ valid_prices) (str_split "," s).
Proof.
  rewrite Forall_forall. split.
  - intros H t Ht. apply H. now apply elem_of_list_to_set.
  - intros H t Ht. apply elem_of_list_to_set in Ht. now apply H.
Qed.

Lemma valid_price_free_of_comma t : t ∈ valid_prices -> free_of "," t.
Proof.
  intros Ht Hc. pose proof (valid_price_occurs t "," Ht Hc) as H.
  cbn in H. intuition discriminate.
Qed.

(** X4.  The prices that pass the check are exactly those whose text, the
    spaces left out, is a comma-separated list of one or more of the tiers
    1, 2, 3, 4: an empty entry, a doubled or trailing comma, or two tiers
    written together are refused like a foreign character. *)
Theorem accepted_price_is_tier_list (p : string) :
  p <> "" ->
  (price_accepted (Some p) = true <->
   exists tiers,
     tiers <> [] /\ Forall (fun t => t ∈ valid_prices) tiers /\
     str_remove " " p = str_join "," tiers).
Proof.
  intros Hp. destruct p as [|a p']; [congruence|]. cbn [price_accepted].
  rewrite bool_decide_eq_true. unfold price_parts. rewrite price_parts_valid.
  split.
  - intros H. exists (str_split "," (str_remove " " (String a p'))).
    split; [apply str_split_nonempty|]. split; [exact H|].
    symmetry. apply str_join_split.
  - intros (tiers & Hne & Hv & ->). rewrite str_split_join; [exact Hv | exact Hne |].
    eapply Forall_impl; [exact Hv|]. intros t. apply valid_price_free_of_comma.
Qed.

Lemma accepted_price_is_tier_list_witness :
  price_accepted (Some "3, 1 ,4") = true /\
  price_accepted (Some "1,,2") = false /\
  price_accepted (Some "12") = false /\
  price_accepted (Some " ") = false.
Proof.
  split.
  - apply (accepted_price_is_tier_list "3, 1 ,4"); [discriminate|].
    exists ["3"; "1"; "4"]. split; [discriminate|]. split; [|reflexivity].
    repeat constructor; unfold valid_prices; set_solver.
  - repeat split; reflexivity.
Defined.

(** X5.  An empty price is an absent price: the check is skipped, no price
    goes upstream, the cache key ends in nothing, and the whole request
    runs as it does without one. *)
Theorem empty_price_is_no_price (env : Env) (cache : Cache) (q : Query) :
  get_top_places env cache (with_price q (Some ""))
  = get_top_places env cache (with_price q None) /\
  cache_key (with_price q (Some "")) = cache_key (with_price q None) /\
  params_of (with_price q (Some "")) = params_of (with_price q None).
Proof. repeat split. Qed.

(** X6.  Two non-empty prices that differ only in spaces pass or fail the
    check together and make the same upstream request, yet they are cached
    under different keys. *)
Theorem spaces_split_the_cache (q : Query) (p1 p2 : string) :
  p1 <> "" -> p2 <> "" -> str_remove " " p1 = str_remove " " p2 ->
  price_accepted (Some p1) = price_accepted (Some p2) /\
  params_of (with_price q (Some p1)) = params_of (with_price q (Some p2)) /\
  (p1 <> p2 ->
   cache_key (with_price q (Some p1)) <> cache_key (with_price q (Some p2))).
Proof.
  intros H1 H2 Heq.
  destruct p1 as [|a1 p1]; [congruence|]. destruct p2 as [|a2 p2]; [congruence|].
  split; [|split].
  - cbn [price_accepted]. unfold price_parts. now rewrite Heq.
  - unfold params_of, yelp_params, with_price. cbn [term lat lng radius_m limit open_now q_price truthy].
    f_equal. cbn [fmap option_fmap option_map]. now rewrite Heq.
  - intros Hne Hk. apply Hne. unfold cache_key, with_price in Hk.
    cbn [term lat lng radius_m limit open_now q_price] in Hk.
    repeat (apply append_cancel_l in Hk; apply (append_cancel_l "|") in Hk).
    exact Hk.
Qed.

Lemma spaces_split_the_cache_witness :
  str_remove " " "1,2" = str_remove " " "1, 2" /\
  params_of (with_price query_pizza (Some "1,2"))
  = params_of (with_price query_pizza (Some "1, 2")) /\
  cache_key (with_price query_pizza (Some "1,2"))
  <> cache_key (with_price query_pizza (Some "1, 2")).
Proof.
  destruct (spaces_split_the_cache query_pizza "1,2" "1, 2") as (_ & Hp & Hk);
    [discriminate | discriminate | reflexivity |].
  split; [reflexivity|]. split; [exact Hp | apply Hk; discriminate].
Defined.

(* ===================================================================== *)
(** ** More on the endpoint                                                *)
(* ===================================================================== *)

(** X7.  A request without a latitude or a longitude, with a coordinate
    outside [-90, 90] or [-180, 180] (a nan included), with a radius outside
    100..40000 or a limit outside 1..50 is answered 422: the handler does
    not run, so nothing goes upstream and the cache is untouched. *)
Theorem out_of_bounds_rejected (env : Env) (cache : Cache) (raw : RawQuery) :
  breaks_declared_bounds raw ->
  top env cache raw = (ReplyError 422 "Unprocessable Entity", cache, []).
Proof.
  intros H. unfold top.
  assert (Hv : validate raw = None); [|now rewrite Hv].
  unfold validate, int_between.
  destruct (raw_term raw) as [t|]; [|reflexivity].
  destruct H as [H|[H|[(x & Hx & H)|[(x & Hx & H)|[(n & Hn & H)|(n & Hn & H)]]]]].
  - now rewrite H.
  - rewrite H. now destruct (raw_lat raw).
  - rewrite Hx. destruct (raw_lng raw); [|reflexivity]. cbn. now rewrite H.
  - rewrite Hx. destruct (raw_lat raw); [|reflexivity]. cbn.
    rewrite H. now rewrite andb_false_r.
  - rewrite Hn. destruct (raw_lat raw); [|reflexivity].
    destruct (raw_lng raw); [|reflexivity]. cbn.
    destruct (Z.leb_spec 100 n), (Z.leb_spec n 40000);
      try lia; cbn; now rewrite ?andb_false_r.
  - rewrite Hn. destruct (raw_lat raw); [|reflexivity].
    destruct (raw_lng raw); [|reflexivity]. cbn.
    destruct (Z.leb_spec 1 n), (Z.leb_spec n 50);
      try lia; cbn; now rewrite ?andb_false_r.
Qed.

Lemma out_of_bounds_rejected_witness :
  breaks_declared_bounds raw_lat_91 /\
  top (env_answering [biz_established]) [] raw_lat_91
  = (ReplyError 422 "Unprocessable Entity", [], []).
Proof.
  assert (H : breaks_declared_bounds raw_lat_91).
  { right. right. left. exists 91%float. split; reflexivity. }
  split; [exact H|].
  exact (out_of_bounds_rejected (env_answering [biz_established]) [] raw_lat_91 H).
Defined.

Lemma upstream_calls_when (env : Env) (cache : Cache) (q : Query) :
  let o := get_top_places env cache q in
  (upstream_calls o = [] \/ upstream_calls o = [params_of q]) /\
  (upstream_calls o = [] <->
   price_accepted (q_price q) = false \/
   Cachetools.contains (now_contains env) (cache_key q) cache = true).
Proof.
  unfold get_top_places, params_of.
  destruct (price_accepted (q_price q)); cbn [negb];
    [|split; [now left | split; auto]].
  destruct (Cachetools.contains (now_contains env) (cache_key q) cache).
  { destruct (Cachetools.getitem _ _ _). cbn. split; [now left | split; auto]. }
  unfold search_yelp.
  destruct (_ ≫= for_each score_business) as [scored|e].
  - destruct (Cachetools.setitem _ _ _ _ _ _). cbn.
    split; [now right|]. split; [discriminate | intros [|]; discriminate].
  - cbn. split; [now right|]. split; [discriminate | intros [|]; discriminate].
Qed.

(** X8.  One request makes at most one upstream call, the one for its own
    parameters, and it makes none exactly when the price is refused or the
    cache holds a fresh link for its key: nothing is retried. *)
Theorem at_most_one_upstream_call (env : Env) (cache : Cache) (q : Query) :
  let o := get_top_places env cache q in
  (upstream_calls o = [] \/ upstream_calls o = [params_of q]) /\
  (upstream_calls o = [] <->
   price_accepted (q_price q) = false \/
   Cachetools.contains (now_contains env) (cache_key q) cache = true) /\
  (length (upstream_calls o) <= 1)%nat.
Proof.
  intros o. destruct (upstream_calls_when env cache q) as [Hc Hiff].
  fold o in Hc, Hiff. split; [exact Hc|]. split; [exact Hiff|].
  destruct Hc as [-> | ->]; cbn; lia.
Qed.

Lemma contains_false_later {V : Type} (t1 t2 : float) k
    (links : list (Cachetools.link V)) :
  PrimFloat.leb t1 t2 = true ->
  Cachetools.contains t1 k links = false ->
  Cachetools.contains t2 k links = false.
Proof.
  intros Hle. unfold Cachetools.contains, Cachetools.fresh.
  destruct (Cachetools.getlink k links) as [l|]; [|reflexivity].
  intros H1. apply not_true_is_false. intros H2.
  rewrite (float_leb_ltb_trans _ _ _ Hle H2) in H1. discriminate.
Qed.

(** What a request is when it went upstream and raised. *)
Lemma failed_after_upstream env cache q e :
  let o := get_top_places env cache q in
  result o = Raise e -> upstream_calls o <> [] ->
  cache_after o = cache /\
  price_accepted (q_price q) = true /\
  Cachetools.contains (now_contains env) (cache_key q) cache = false /\
  snd (search_for (requests_get env) q) ≫= for_each score_business = Raise e.
Proof.
  unfold get_top_places, search_for.
  destruct (price_accepted (q_price q)); cbn [negb]; [|cbn; congruence].
  destruct (Cachetools.contains (now_contains env) (cache_key q) cache).
  { destruct (Cachetools.getitem _ _ _). cbn. congruence. }
  unfold search_yelp. cbn [snd].
  destruct (_ ≫= for_each score_business) as [scored|e'].
  - destruct (setitem_stores CACHE_MAXSIZE CACHE_TTL (now_setitem env)
                (cache_key q) (build_response q scored) cache)
      as (older & -> & _); [unfold CACHE_MAXSIZE; lia|].
    cbn. discriminate.
  - cbn. intros [= ->] _. auto.
Qed.

(** X9.  A request that went upstream and failed, in the call or in the
    scoring, stores nothing: the cache is exactly as it was, and the same
    request made again at any later reading of the timer goes upstream
    again. *)
Theorem failures_are_not_cached (env env2 : Env) (cache : Cache) (q : Query)
    (e : exn) :
  let o := get_top_places env cache q in
  result o = Raise e -> upstream_calls o <> [] ->
  PrimFloat.leb (now_contains env) (now_contains env2) = true ->
  cache_after o = cache /\
  upstream_calls (get_top_places env2 (cache_after o) q) = [params_of q].
Proof.
  intros o Hr Hu Hle.
  destruct (failed_after_upstream env cache q e Hr Hu) as (Hc & Hp & Hcon & _).
  split; [exact Hc|]. fold o in Hc. rewrite Hc.
  pose proof (contains_false_later _ _ _ _ Hle Hcon) as Hcon2.
  destruct (upstream_calls_when env2 cache q) as [[H|H] Hiff]; [|exact H].
  apply Hiff in H as [H|H]; congruence.
Qed.

Lemma failures_are_not_cached_witness :
  let env := env_answering [biz_established; biz_negative_count] in
  let o := get_top_places env [] (query_sushi None) in
  result o = Raise ZeroDivisionError /\
  upstream_calls o = [params_of (query_sushi None)] /\
  PrimFloat.leb (now_contains env) (now_contains env_later) = true /\
  cache_after o = [] /\
  upstream_calls (get_top_places env_later (cache_after o) (query_sushi None))
  = [params_of (query_sushi None)].
Proof.
  intros env o.
  assert (Hr : result o = Raise ZeroDivisionError) by (vm_compute; reflexivity).
  assert (Hu : upstream_calls o <> []) by discriminate.
  destruct (failures_are_not_cached env env_later [] (query_sushi None) _ Hr Hu
              eq_refl) as [Hc Hagain].
  split; [exact Hr|]. split; [reflexivity|]. split; [reflexivity|].
  split; [exact Hc | exact Hagain].
Defined.

(** Scoring a record of the declared types fails in three ways only: a
    review count of -150 raises [ZeroDivisionError]; otherwise a distance
    that is nan raises [ValueError] and an infinite one [OverflowError].  In
    every other case it gives a result that carries the rating and the count
    as received (0 when missing), the score rounded to two decimals and the
    name, "Unknown" when missing. *)
Lemma score_business_declared_types (biz : Business) :
  (review_count_of biz = -150 -> score_business biz = Raise ZeroDivisionError) /\
  (review_count_of biz <> -150 ->
   forall d, b_distance biz = Some d ->
     (is_nan d = true -> score_business biz = Raise ValueError) /\
     (is_infinity d = true -> score_business biz = Raise OverflowError)) /\
  (review_count_of biz <> -150 ->
   (forall d, b_distance biz = Some d -> is_finite d = true) ->
   exists r,
     score_business biz = Return r /\
     score r = round2 (weighted_average PRIOR_RATING DAMPING_FACTOR
                         (rating_of biz) (review_count_of biz)) /\
     rating r = rating_of biz /\ review_count r = review_count_of biz /\
     name r = default "Unknown" (b_name biz) /\ price r = b_price biz).
Proof.
  unfold score_business. split; [|split].
  - intros ->. reflexivity.
  - intros Hv d Hd. rewrite (score_off_the_pole _ _ Hv), Hd.
    cbn [mbind py_bind]. unfold int_of_float, is_nan, is_infinity.
    destruct (Prim2SF d); split; intros; try discriminate; reflexivity.
  - intros Hv Hd. rewrite (score_off_the_pole _ _ Hv). cbn [mbind py_bind].
    destruct (b_distance biz) as [d|].
    + specialize (Hd d eq_refl). unfold int_of_float, is_finite in *.
      destruct (Prim2SF d); try discriminate; cbn [mbind py_bind mret py_ret];
        eexists; (split; [reflexivity|]); cbn; auto.
    + cbn [mbind py_bind mret py_ret]. eexists. split; [reflexivity|]. cbn. auto.
Qed.

Lemma score_business_raises biz e :
  score_business biz = Raise e ->
  e = ZeroDivisionError \/ e = ValueError \/ e = OverflowError.
Proof.
  unfold score_business.
  destruct (Z.eq_dec (review_count_of biz) (-150)) as [->|Hv].
  - cbn. intros [= <-]. auto.
  - rewrite (score_off_the_pole _ _ Hv). cbn [mbind py_bind].
    destruct (b_distance biz) as [d|]; [|discriminate].
    unfold int_of_float. destruct (Prim2SF d); cbn; intros [= <-]; auto.
Qed.

Lemma truediv_raises a b e :
  truediv a b = Raise e -> e = ZeroDivisionError \/ e = OverflowError.
Proof.
  unfold truediv. destruct (b =? 0); [intros [= <-]; auto|].
  destruct (_ <=? _); [intros [= <-]; auto | discriminate].
Qed.

Lemma scorer_raises R v e :
  calculate_bayesian_score R v = Raise e ->
  e = ZeroDivisionError \/ e = OverflowError.
Proof.
  unfold calculate_bayesian_score.
  destruct (truediv v (v + DAMPING_FACTOR)) as [w|e1] eqn:H1; cbn.
  - destruct (truediv DAMPING_FACTOR (v + DAMPING_FACTOR)) as [w'|e2] eqn:H2; cbn.
    + discriminate.
    + intros [= <-]. now apply truediv_raises in H2.
  - intros [= <-]. now apply truediv_raises in H1.
Qed.

Lemma scorer_json_raises R v e :
  calculate_bayesian_score_json R v = Raise e ->
  e = TypeError \/ e = ZeroDivisionError \/ e = OverflowError.
Proof.
  unfold calculate_bayesian_score_json, calculate_bayesian_score_float,
    float_of_int_checked.
  destruct (as_number v) as [[n|x]|]; [| |intros [= <-]; auto].
  - destruct (truediv n (n + DAMPING_FACTOR)) as [w|e1] eqn:H1; cbn.
    + destruct (as_number R) as [[k|y]|]; [| |intros [= <-]; auto].
      * destruct (_ <=? _); cbn; [intros [= <-]; auto|].
        intros [H|H]%scorer_raises; auto.
      * intros [H|H]%scorer_raises; auto.
    + intros [= <-]. apply truediv_raises in H1 as [H|H]; auto.
  - destruct (PrimFloat.eqb _ 0); [intros [= <-]; auto|].
    destruct (as_number R) as [[k|y]|]; [| |intros [= <-]; auto].
    + destruct (_ <=? _); cbn; [intros [= <-]; auto | discriminate].
    + discriminate.
Qed.

Lemma join_json_raises sep v e : join_json sep v = Raise e -> e = TypeError.
Proof.
  destruct v; cbn; try (intros [= <-]; reflexivity); try discriminate.
  destruct (all_str items); [discriminate | now intros [= <-]].
Qed.

Lemma int_of_json_raises int_of_str v e :
  int_of_json int_of_str v = Raise e ->
  e = TypeError \/ e = ValueError \/ e = OverflowError.
Proof.
  destruct v; cbn; try (intros [= <-]; auto; fail); try discriminate.
  - unfold int_of_float. destruct (Prim2SF x); try discriminate; intros [= <-]; auto.
  - destruct (int_of_str s); [discriminate | intros [= <-]; auto].
Qed.

Lemma constructor_args_raises int_of_str biz e :
  constructor_args int_of_str biz = Raise e ->
  e = TypeError \/ e = AttributeError \/ e = ZeroDivisionError \/
  e = ValueError \/ e = OverflowError.
Proof.
  unfold constructor_args.
  destruct biz as [| | | | | |d]; try (intros [= <-]; auto; fail).
  destruct (calculate_bayesian_score_json _ _) as [s|e1] eqn:Hs; cbn.
  2:{ intros [= <-]. apply scorer_json_raises in Hs as [H|[H|H]]; auto. }
  destruct (default (JDict []) (dict_get d "location")) as [| | | | | |loc];
    try (intros [= <-]; auto; fail).
  destruct (join_json _ _) as [a|e1] eqn:Ha; cbn.
  2:{ intros [= <-]. apply join_json_raises in Ha. auto. }
  destruct (int_of_json _ _) as [n|e1] eqn:Hn; cbn; [discriminate|].
  intros [= <-]. apply int_of_json_raises in Hn as [H|[H|H]]; auto.
Qed.

Lemma truediv_then_scorer R v :
  (truediv v (v + DAMPING_FACTOR) ≫= fun _ => calculate_bayesian_score R v)
  = calculate_bayesian_score R v.
Proof.
  unfold calculate_bayesian_score.
  destruct (truediv v (v + DAMPING_FACTOR)); reflexivity.
Qed.

Lemma scorer_json_declared vr vc ro co :
  float_entry vr = Some ro -> int_entry vc = Some co ->
  calculate_bayesian_score_json (default (JInt 0) vr) (default (JInt 0) vc)
  = calculate_bayesian_score (default (float_of_int 0) ro) (default 0 co).
Proof.
  intros Hr Hc.
  assert (Hcount : as_number (default (JInt 0) vc) = Some (NInt (default 0 co))).
  { destruct vc as [[]|]; try discriminate; injection Hc as <-; reflexivity. }
  unfold calculate_bayesian_score_json. rewrite Hcount.
  destruct vr as [[]|]; try discriminate; injection Hr as <-; cbn [default as_number].
  - apply truediv_then_scorer.
  - change (float_of_int_checked 0) with (Return (float_of_int 0)).
    apply truediv_then_scorer.
Qed.

Ltac declared_entry H :=
  match type of H with
  | _ ?v = Some _ =>
      destruct v as [[]|]; try discriminate H; cbn in H; injection H as <-
  end.

Lemma validated_declared vn vr vc vp vu vi no ro co po uo io s dist addr :
  str_entry vn = Some no -> float_entry vr = Some ro -> int_entry vc = Some co ->
  price_entry vp = Some po -> str_entry vu = Some uo -> str_entry vi = Some io ->
  validated {| arg_name := default (JStr "Unknown") vn;
               arg_rating := default (JInt 0) vr;
               arg_review_count := default (JInt 0) vc;
               arg_score := s;
               arg_price := default JNull vp;
               arg_distance_m := dist;
               arg_address := addr;
               arg_url := default (JStr "") vu;
               arg_yelp_id := default (JStr "") vi |}
  = Some {| name := default "Unknown" no;
            rating := default (float_of_int 0) ro;
            review_count := default 0 co;
            score := s;
            price := po;
            distance_m := dist;
            address := addr;
            url := default "" uo;
            yelp_id := default "" io |}.
Proof.
  intros Hn Hr Hc Hp Hu Hi.
  declared_entry Hn; declared_entry Hr; declared_entry Hc; declared_entry Hp;
    declared_entry Hu; declared_entry Hi; reflexivity.
Qed.

Lemma score_business_of_json int_of_str init j biz :
  accepts_declared_types init -> business_of_json j = Some biz ->
  score_business_json int_of_str init j = score_business biz.
Proof.
  intros Hinit H. destruct j as [| | | | | |d]; try discriminate.
  cbn [business_of_json] in H.
  destruct (float_entry (dict_get d "rating")) as [ro|] eqn:Hr; [|discriminate].
  destruct (int_entry (dict_get d "review_count")) as [co|] eqn:Hc; [|discriminate].
  destruct (str_entry (dict_get d "name")) as [no|] eqn:Hn; [|discriminate].
  destruct (price_entry (dict_get d "price")) as [po|] eqn:Hp; [|discriminate].
  destruct (float_entry (dict_get d "distance")) as [do|] eqn:Hd; [|discriminate].
  destruct (location_entry (dict_get d "location")) as [lo|] eqn:Hl; [|discriminate].
  destruct (str_entry (dict_get d "url")) as [uo|] eqn:Hu; [|discriminate].
  destruct (str_entry (dict_get d "id")) as [io|] eqn:Hi; [|discriminate].
  cbn in H. injection H as <-.
  unfold score_business_json, constructor_args, score_business, rating_of,
    review_count_of.
  cbn [b_rating b_review_count b_name b_price b_distance b_location b_url b_id].
  rewrite (scorer_json_declared _ _ ro co Hr Hc).
  destruct (calculate_bayesian_score _ _) as [s|e]; [|reflexivity].
  cbn [mbind py_bind].
  assert (Hloc :
    exists parts,
      default [] (display_address (default {| display_address := None |} lo)) = parts /\
      exists loc, default (JDict []) (dict_get d "location") = JDict loc /\
        join_json ", " (default (JList []) (dict_get loc "display_address"))
        = Return (str_join ", " parts)).
  { eexists. split; [reflexivity|].
    destruct (dict_get d "location") as [[| | | | | |loc]|]; try discriminate.
    - exists loc. split; [reflexivity|]. cbn in Hl.
      destruct (dict_get loc "display_address") as [[| | | | |items|]|];
        try discriminate.
      + cbn in Hl |- *. destruct (all_str items); [|discriminate].
        cbn in Hl. now injection Hl as <-.
      + now injection Hl as <-.
    - exists []. split; [reflexivity|]. now injection Hl as <-. }
  destruct Hloc as (parts & -> & loc & -> & ->). cbn [mbind py_bind].
  assert (Hdist : int_of_json int_of_str (default (JInt 0) (dict_get d "distance"))
                  = match do with Some x => int_of_float x | None => Return 0 end).
  { declared_entry Hd; reflexivity. }
  rewrite Hdist.
  destruct (match do with Some x => int_of_float x | None => Return 0 end)
    as [dist|e]; [|reflexivity].
  cbn [mbind py_bind mret py_ret]. apply Hinit.
  now apply validated_declared.
Qed.

Lemma init_declared_only_accepts : accepts_declared_types init_declared_only.
Proof. intros a r H. unfold init_declared_only. now rewrite H. Qed.

(** X10.  The loop body on a business as received, any JSON value.  What
    it raises before the constructor of [BusinessResult] is called is a
    [TypeError], an [AttributeError], a [ZeroDivisionError], a [ValueError]
    or an [OverflowError], and nothing else: a business that is not an
    object gives [AttributeError]; a review count that is no number, null
    included, gives [TypeError] whatever else the record holds; the count
    -150 gives [ZeroDivisionError]; a location that is not an object gives
    [AttributeError] once the score is computed.  For a record whose entries
    are of the declared types, and a constructor that keeps such values, the
    body is [score_business]: it fails in three ways only, at the count
    -150, at a nan distance ([ValueError]) and at an infinite one
    ([OverflowError]), and otherwise gives a result with the rating and the
    count as received (0 when missing), the score rounded to two decimals
    and the name, "Unknown" when missing. *)
Theorem score_business_outcomes (int_of_str : string -> option Z)
    (init : BusinessResultArgs -> py BusinessResult) (biz : Json) :
  (forall e, constructor_args int_of_str biz = Raise e ->
     (e = TypeError \/ e = AttributeError \/ e = ZeroDivisionError \/
      e = ValueError \/ e = OverflowError) /\
     score_business_json int_of_str init biz = Raise e) /\
  ((forall entries, biz <> JDict entries) ->
   score_business_json int_of_str init biz = Raise AttributeError) /\
  (forall entries v, biz = JDict entries ->
     dict_get entries "review_count" = Some v -> as_number v = None ->
     score_business_json int_of_str init biz = Raise TypeError) /\
  (forall entries, biz = JDict entries ->
     dict_get entries "review_count" = Some (JInt (-150)) ->
     score_business_json int_of_str init biz = Raise ZeroDivisionError) /\
  (forall entries s l, biz = JDict entries ->
     calculate_bayesian_score_json (default (JInt 0) (dict_get entries "rating"))
       (default (JInt 0) (dict_get entries "review_count")) = Return s ->
     dict_get entries "location" = Some l -> (forall loc, l <> JDict loc) ->
     score_business_json int_of_str init biz = Raise AttributeError) /\
  (forall typed,
     accepts_declared_types init -> business_of_json biz = Some typed ->
     score_business_json int_of_str init biz = score_business typed /\
     (forall e, score_business_json int_of_str init biz = Raise e ->
        e = ZeroDivisionError \/ e = ValueError \/ e = OverflowError) /\
     (review_count_of typed = -150 ->
      score_business_json int_of_str init biz = Raise ZeroDivisionError) /\
     (review_count_of typed <> -150 ->
      forall d, b_distance typed = Some d ->
        (is_nan d = true ->
         score_business_json int_of_str init biz = Raise ValueError) /\
        (is_infinity d = true ->
         score_business_json int_of_str init biz = Raise OverflowError)) /\
     (review_count_of typed <> -150 ->
      (forall d, b_distance typed = Some d -> is_finite d = true) ->
      exists r,
        score_business_json int_of_str init biz = Return r /\
        score r = round2 (weighted_average PRIOR_RATING DAMPING_FACTOR
                            (rating_of typed) (review_count_of typed)) /\
        rating r = rating_of typed /\ review_count r = review_count_of typed /\
        name r = default "Unknown" (b_name typed) /\ price r = b_price typed)).
Proof.
  split; [|split; [|split; [|split; [|split]]]].
  - intros e He. split; [now apply constructor_args_raises in He|].
    unfold score_business_json. now rewrite He.
  - intros Hno. destruct biz as [| | | | | |d]; try reflexivity.
    now destruct (Hno d).
  - intros entries v -> Hv Hnum. unfold score_business_json, constructor_args.
    rewrite Hv. unfold calculate_bayesian_score_json.
    change (default (JInt 0) (Some v)) with v. now rewrite Hnum.
  - intros entries -> Hv. unfold score_business_json, constructor_args.
    rewrite Hv. reflexivity.
  - intros entries s l -> Hs Hl Hno. unfold score_business_json, constructor_args.
    rewrite Hs, Hl. cbn [mbind py_bind default].
    destruct l as [| | | | | |loc]; try reflexivity. now destruct (Hno loc).
  - intros typed Hinit Hty.
    rewrite (score_business_of_json int_of_str init biz typed Hinit Hty).
    destruct (score_business_declared_types typed) as (H1 & H2 & H3).
    split; [reflexivity|]. split; [apply score_business_raises|]. auto.
Qed.

Lemma score_business_outcomes_witness :
  let body := score_business_json int_of_str_sample init_declared_only in
  body json_text_rating = Raise TypeError /\
  body (JStr "Cafe") = Raise AttributeError /\
  body json_null_count = Raise TypeError /\
  body json_null_location = Raise AttributeError /\
  business_of_json json_three_reviews = Some biz_three_reviews /\
  exists r, body json_three_reviews = Return r /\
            score r = 3.82%float /\ distance_m r = 850.
Proof.
  intros body.
  destruct (score_business_outcomes int_of_str_sample init_declared_only
              json_text_rating) as (Hargs & _).
  destruct (score_business_outcomes int_of_str_sample init_declared_only
              (JStr "Cafe")) as (_ & Hstr & _).
  destruct (score_business_outcomes int_of_str_sample init_declared_only
              json_null_count) as (_ & _ & Hcount & _).
  destruct (score_business_outcomes int_of_str_sample init_declared_only
              json_null_location) as (_ & _ & _ & _ & Hloc & _).
  destruct (score_business_outcomes int_of_str_sample init_declared_only
              json_three_reviews) as (_ & _ & _ & _ & _ & Htyped).
  split; [exact (proj2 (Hargs TypeError eq_refl))|].
  split; [apply Hstr; discriminate|].
  split; [exact (Hcount _ JNull eq_refl eq_refl eq_refl)|].
  split.
  { assert (Hs : calculate_bayesian_score_json (JFloat 4.5) (JInt 12)
                 = Return (weighted_average PRIOR_RATING DAMPING_FACTOR 4.5 12))
      by (vm_compute; reflexivity).
    assert (Hno : forall loc, JNull <> JDict loc) by discriminate.
    exact (Hloc [("name", JStr "Cafe"); ("rating", JFloat 4.5);
                 ("review_count", JInt 12); ("location", JNull)]
             _ JNull eq_refl Hs eq_refl Hno). }
  split; [reflexivity|].
  destruct (Htyped biz_three_reviews init_declared_only_accepts eq_refl)
    as (_ & _ & _ & _ & (r & Hr & _)); [discriminate | intros d [= <-]; reflexivity |].
  exists r. split; [exact Hr|].
  assert (E : Return r = body json_three_reviews) by (symmetry; exact Hr).
  vm_compute in E. injection E as ->. split; reflexivity.
Defined.

Lemma for_each_length {A B : Type} (f : A -> py B) xs ys :
  for_each f xs = Return ys -> length ys = length xs.
Proof.
  revert ys. induction xs as [|x xs IH]; intros ys; cbn.
  - now intros [= <-].
  - destruct (f x); [|discriminate]. cbn.
    destruct (for_each f xs) as [ys'|]; [|discriminate]. cbn.
    intros [= <-]. cbn. f_equal. now apply IH.
Qed.

Lemma for_each_In {A B : Type} (f : A -> py B) xs ys y :
  for_each f xs = Return ys -> In y ys -> exists x, In x xs /\ f x = Return y.
Proof.
  revert ys. induction xs as [|x xs IH]; intros ys; cbn.
  - intros [= <-] [].
  - destruct (f x) as [y0|] eqn:E; [|discriminate]. cbn.
    destruct (for_each f xs) as [ys'|]; [|discriminate]. cbn.
    intros [= <-] [<-|Hy].
    + exists x. auto.
    + destruct (IH ys' eq_refl Hy) as (x' & Hx' & Hf). exists x'. auto.
Qed.

Lemma for_each_failure {A B : Type} (f : A -> py B) xs x e :
  In x xs -> f x = Raise e ->
  exists x' e', In x' xs /\ f x' = Raise e' /\ for_each f xs = Raise e'.
Proof.
  induction xs as [|x0 xs IH]; [intros []|]. intros Hin Hx. cbn.
  destruct (f x0) as [y0|e0] eqn:E0.
  - destruct Hin as [->|Hin]; [congruence|].
    destruct (IH Hin Hx) as (x' & e' & Hx' & Hf & ->).
    exists x', e'. cbn. auto.
  - exists x0, e0. cbn. auto.
Qed.

(** X11.  One business that cannot be scored fails the whole request:
    whatever the other businesses are, the reply is a 500, no partial result
    is returned and nothing is cached, although the upstream call was
    made. *)
Theorem one_bad_record_fails_request (env : Env) (cache : Cache) (q : Query)
    (businesses : list Business) (biz : Business) (e : exn) :
  price_accepted (q_price q) = true ->
  Cachetools.contains (now_contains env) (cache_key q) cache = false ->
  snd (search_for (requests_get env) q) = Return businesses ->
  In biz businesses -> score_business biz = Raise e ->
  let o := get_top_places env cache q in
  reply_of (result o) = ReplyError 500 "Internal Server Error" /\
  cache_after o = cache /\ upstream_calls o = [params_of q].
Proof.
  intros Hp Hc Hs Hin Hbiz.
  destruct (for_each_failure score_business businesses biz e Hin Hbiz)
    as (b' & e' & _ & Hb' & Hfor).
  unfold get_top_places, search_for, params_of in *. rewrite Hp, Hc. cbn [negb].
  unfold search_yelp in *. cbn [snd] in Hs. rewrite Hs.
  cbn [mbind py_bind]. rewrite Hfor.
  cbn [result cache_after upstream_calls]. split; [|auto].
  destruct (score_business_raises _ _ Hb') as [->|[->| ->]]; reflexivity.
Qed.

Lemma one_bad_record_fails_request_witness :
  let env := env_answering [biz_established; biz_nan_distance; biz_three_reviews] in
  let o := get_top_places env [] (query_sushi None) in
  In biz_nan_distance [biz_established; biz_nan_distance; biz_three_reviews] /\
  score_business biz_nan_distance = Raise ValueError /\
  reply_of (result o) = ReplyError 500 "Internal Server Error" /\
  cache_after o = [] /\ upstream_calls o = [params_of (query_sushi None)].
Proof.
  intros env o.
  assert (Hin : In biz_nan_distance
                  [biz_established; biz_nan_distance; biz_three_reviews])
    by (right; left; reflexivity).
  assert (Hb : score_business biz_nan_distance = Raise ValueError) by reflexivity.
  split; [exact Hin|]. split; [exact Hb|].
  exact (one_bad_record_fails_request env [] (query_sushi None) _ _ _
           eq_refl eq_refl eq_refl Hin Hb).
Defined.

(** X12.  Once the stored link has expired, it is not served: a repeat of
    the request whose membership test comes at or after the expiry goes
    upstream again. *)
Theorem expired_entry_is_refetched (env1 env2 : Env) (cache : Cache) (q : Query)
    (resp : TopPlacesResponse) :
  let o1 := get_top_places env1 cache q in
  result o1 = Return resp -> upstream_calls o1 <> [] ->
  PrimFloat.ltb (now_contains env2) (fresh_until (now_setitem env1)) = false ->
  upstream_calls (get_top_places env2 (cache_after o1) q) = [params_of q].
Proof.
  intros o1 Hr Hu Hexp.
  destruct (first_call_stores env1 cache q resp Hr Hu) as (Hp & _ & older & Hc & Hold).
  fold o1 in Hc. rewrite Hc.
  destruct (lookup_last (cache_key q) resp (fresh_until (now_setitem env1)) older
              Hold (now_contains env2)) as [Hcon _].
  rewrite Hexp in Hcon.
  destruct (upstream_calls_when env2
              (older ++ [Cachetools.Link (cache_key q) resp
                           (fresh_until (now_setitem env1))]) q)
    as [[H|H] Hiff]; [|exact H].
  apply Hiff in H as [H|H]; congruence.
Qed.

(** X13.  The membership test and the lookup read the timer separately:
    when the link expires between the two, the lookup raises [KeyError], the
    request ends in a 500, and no upstream call is made. *)
Theorem expiry_between_test_and_lookup (env1 env2 : Env) (cache : Cache)
    (q : Query) (resp : TopPlacesResponse) :
  let o1 := get_top_places env1 cache q in
  result o1 = Return resp -> upstream_calls o1 <> [] ->
  PrimFloat.ltb (now_contains env2) (fresh_until (now_setitem env1)) = true ->
  PrimFloat.ltb (now_getitem env2) (fresh_until (now_setitem env1)) = false ->
  let o2 := get_top_places env2 (cache_after o1) q in
  result o2 = Raise (KeyError (cache_key q)) /\
  reply_of (result o2) = ReplyError 500 "Internal Server Error" /\
  upstream_calls o2 = [].
Proof.
  intros o1 Hr Hu Hc Hg.
  destruct (first_call_stores env1 cache q resp Hr Hu) as (Hp & _ & older & Hca & Hold).
  fold o1 in Hca. rewrite Hca. unfold get_top_places. rewrite Hp. cbn [negb].
  destruct (lookup_last (cache_key q) resp (fresh_until (now_setitem env1)) older
              Hold (now_contains env2)) as [-> _].
  destruct (lookup_last (cache_key q) resp (fresh_until (now_setitem env1)) older
              Hold (now_getitem env2)) as [_ ->].
  rewrite Hc, Hg. cbn. auto.
Qed.

Lemma expired_entry_is_refetched_witness :
  let env1 := env_answering [biz_established] in
  let o1 := get_top_places env1 [] (query_sushi None) in
  exists resp,
    result o1 = Return resp /\ upstream_calls o1 = [params_of (query_sushi None)] /\
    PrimFloat.ltb (now_contains env_at_expiry) (fresh_until (now_setitem env1)) = false /\
    upstream_calls (get_top_places env_at_expiry (cache_after o1) (query_sushi None))
    = [params_of (query_sushi None)].
Proof.
  intros env1 o1. eexists. split; [vm_compute; reflexivity|].
  split; [reflexivity|]. split; [reflexivity|].
  assert (Hu : upstream_calls o1 <> []) by discriminate.
  exact (expired_entry_is_refetched env1 env_at_expiry [] (query_sushi None) _
           eq_refl Hu eq_refl).
Defined.

Lemma expiry_between_test_and_lookup_witness :
  let env1 := env_answering [biz_established] in
  let o1 := get_top_places env1 [] (query_sushi None) in
  let o2 := get_top_places env_across_expiry (cache_after o1) (query_sushi None) in
  exists resp,
    result o1 = Return resp /\ upstream_calls o1 = [params_of (query_sushi None)] /\
    PrimFloat.ltb (now_contains env_across_expiry) (fresh_until (now_setitem env1)) = true /\
    PrimFloat.ltb (now_getitem env_across_expiry) (fresh_until (now_setitem env1)) = false /\
    result o2 = Raise (KeyError "sushi|43.6532|-79.3832|5000|True|") /\
    upstream_calls o2 = [].
Proof.
  intros env1 o1 o2. eexists. split; [vm_compute; reflexivity|].
  split; [reflexivity|]. split; [reflexivity|]. split; [reflexivity|].
  assert (Hu : upstream_calls o1 <> []) by discriminate.
  destruct (expiry_between_test_and_lookup env1 env_across_expiry [] (query_sushi None)
              _ eq_refl Hu eq_refl eq_refl) as (H1 & _ & H3).
  split; [|exact H3].
  replace (KeyError "sushi|43.6532|-79.3832|5000|True|")
    with (KeyError (cache_key (query_sushi None))) by (vm_compute; reflexivity).
  exact H1.
Defined.

(* ===================================================================== *)
(** ** The cache as a whole                                                *)
(* ===================================================================== *)

Section CacheShape.
Context {V : Type}.
Implicit Types (links : list (Cachetools.link V)) (l x : Cachetools.link V).

Lemma keys_filter_NoDup (P : Cachetools.link V -> bool) links :
  List.NoDup (map Cachetools.key links) ->
  List.NoDup (map Cachetools.key (List.filter P links)).
Proof.
  induction links as [|l links IH]; [auto|]. cbn [map List.filter].
  intros [Hl Hn]%List.NoDup_cons_iff. destruct (P l); [|auto].
  cbn [map]. apply List.NoDup_cons_iff. split; [|auto].
  intros (y & Hk & Hy)%in_map_iff. apply Hl. apply in_map_iff.
  exists y. split; [exact Hk|]. now apply List.filter_In in Hy as [Hy _].
Qed.

Lemma keys_skipn_NoDup n links :
  List.NoDup (map Cachetools.key links) ->
  List.NoDup (map Cachetools.key (skipn n links)).
Proof.
  revert links. induction n as [|n IH]; intros [|l links]; cbn; auto.
  intros [_ Hn]%List.NoDup_cons_iff. now apply IH.
Qed.

Lemma keys_snoc_NoDup links x :
  List.NoDup (map Cachetools.key links) ->
  Cachetools.getlink (Cachetools.key x) links = None ->
  List.NoDup (map Cachetools.key (links ++ [x])).
Proof.
  rewrite getlink_none. induction links as [|l links IH]; cbn [map app].
  - intros _ _. apply List.NoDup_cons_iff. split; [intros [] | constructor].
  - intros [Hl Hn]%List.NoDup_cons_iff Hx. apply List.NoDup_cons_iff. split.
    + rewrite map_app. intros [H|[H|[]]]%in_app_or; [contradiction|].
      specialize (Hx l (or_introl eq_refl)). apply String.eqb_neq in Hx.
      cbn in H. congruence.
    + apply IH; [exact Hn|]. intros y Hy. apply Hx. now right.
Qed.

Lemma without_shorter k links x :
  Cachetools.getlink k links = Some x ->
  (length (Cachetools.without k links) < length links)%nat.
Proof.
  unfold Cachetools.getlink, Cachetools.without.
  induction links as [|l links IH]; [discriminate|]. cbn.
  destruct (String.eqb (Cachetools.key l) k); cbn.
  - intros _. pose proof (length_filter_le
      (fun l0 => negb (String.eqb (Cachetools.key l0) k)) links). lia.
  - intros H. specialize (IH H). lia.
Qed.

Lemma move_to_end_shape k links :
  List.NoDup (map Cachetools.key links) ->
  List.NoDup (map Cachetools.key (Cachetools.move_to_end k links)) /\
  (length (Cachetools.move_to_end k links) <= length links)%nat.
Proof.
  intros Hn. unfold Cachetools.move_to_end.
  destruct (Cachetools.getlink k links) as [x|] eqn:E; [|auto].
  pose proof (getlink_some_key _ _ _ E) as Hk.
  pose proof (without_shorter _ _ _ E) as Hlen. split.
  - apply keys_snoc_NoDup; [now apply keys_filter_NoDup|].
    rewrite Hk. apply getlink_without.
  - rewrite length_app. cbn. lia.
Qed.

Lemma setitem_shape maxsize ttl now k v links :
  1 <= maxsize ->
  List.NoDup (map Cachetools.key links) ->
  let links' := snd (Cachetools.setitem maxsize ttl now k v links) in
  List.NoDup (map Cachetools.key links') /\
  Z.of_nat (length links') <= Z.max maxsize (Z.of_nat (length links)).
Proof.
  intros Hmax Hn. unfold Cachetools.setitem.
  destruct (Z.ltb_spec maxsize 1); [lia|].
  set (links1 := Cachetools.expire now links).
  assert (Hn1 : List.NoDup (map Cachetools.key links1)) by now apply keys_filter_NoDup.
  assert (Hl1 : (length links1 <= length links)%nat) by apply length_filter_le.
  destruct (Cachetools.getlink k links1) as [x|] eqn:E; cbn [snd].
  - pose proof (without_shorter _ _ _ E) as Hlen. split.
    + apply (keys_snoc_NoDup _ (Cachetools.Link k v _));
        [now apply keys_filter_NoDup | apply getlink_without].
    + rewrite length_app. cbn. lia.
  - split.
    + apply (keys_snoc_NoDup _ (Cachetools.Link k v _));
        [now apply keys_skipn_NoDup | now apply getlink_skipn].
    + rewrite length_app, length_skipn. cbn. lia.
Qed.
End CacheShape.

Lemma cache_ok_step (env : Env) (cache : Cache) (q : Query) :
  cache_ok cache -> cache_ok (cache_after (get_top_places env cache q)).
Proof.
  intros [Hn Hlen]. unfold cache_ok, CACHE_MAXSIZE in *. unfold get_top_places.
  destruct (price_accepted (q_price q)); cbn [negb cache_after]; [|auto].
  destruct (Cachetools.contains (now_contains env) (cache_key q) cache).
  - unfold Cachetools.getitem.
    destruct (move_to_end_shape (cache_key q) cache Hn) as [Hn' Hl'].
    unfold Cachetools.move_to_end in *.
    destruct (Cachetools.getlink (cache_key q) cache); cbn [cache_after]; [|auto].
    split; [exact Hn' | lia].
  - destruct (search_yelp _ _ _ _ _ _ _ _) as [calls fetched].
    destruct (fetched ≫= for_each score_business) as [scored|e];
      cbn [cache_after]; [|auto].
    destruct (setitem_shape CACHE_MAXSIZE CACHE_TTL (now_setitem env) (cache_key q)
                (build_response q scored) cache ltac:(unfold CACHE_MAXSIZE; lia) Hn)
      as [Hn' Hl'].
    destruct (Cachetools.setitem _ _ _ _ _ _) as [st cache'].
    cbn [snd cache_after] in *. unfold CACHE_MAXSIZE in Hl'. split; [exact Hn' | lia].
Qed.

Lemma cache_ok_run reqs cache : cache_ok cache -> cache_ok (run_requests reqs cache).
Proof.
  revert cache. induction reqs as [|r reqs IH]; intros cache H; [exact H|].
  cbn [run_requests fold_left]. apply IH. now apply cache_ok_step.
Qed.

(** X14.  Whatever requests are handled, the cache never holds two links
    for one key and never more than 500 links: every request keeps both,
    so they hold after any sequence of requests on the empty cache. *)
Theorem cache_stays_within_capacity :
  (forall env cache q,
     cache_ok cache -> cache_ok (cache_after (get_top_places env cache q))) /\
  (forall reqs, cache_ok (run_requests reqs [])).
Proof.
  split; [apply cache_ok_step|].
  intros reqs. apply cache_ok_run. split; [constructor | cbn; unfold CACHE_MAXSIZE; lia].
Qed.

Lemma cache_stays_within_capacity_witness :
  cache_ok [] /\
  cache_ok (cache_after (get_top_places (env_answering [biz_established]) []
                           (query_sushi None))) /\
  length (run_requests [(env_answering [biz_established], query_sushi None);
                        (env_between, query_pizza);
                        (env_later, query_sushi None)] []) = 2%nat.
Proof.
  destruct cache_stays_within_capacity as [Hstep Hrun].
  assert (H0 : cache_ok []) by exact (Hrun []).
  split; [exact H0|]. split; [exact (Hstep _ _ _ H0)|]. vm_compute. reflexivity.
Defined.

(** X15.  The health check counts the links that are fresh at its reading
    of the timer, and drops the others from the cache on the way; whatever
    requests came before, the size it reports is between 0 and 500. *)
Theorem health_check_counts_fresh_links (now : float) (cache : Cache) :
  let h := fst (health_check now cache) in
  let cache' := snd (health_check now cache) in
  cache_size h = Z.of_nat (length cache') /\
  Forall (fun l => Cachetools.fresh now l = true) cache' /\
  (forall l, In l cache -> (In l cache' <-> Cachetools.fresh now l = true)) /\
  cache_size h <= Z.of_nat (length cache) /\
  (cache_ok cache -> cache_ok cache' /\ 0 <= cache_size h <= 500) /\
  (forall reqs, cache = run_requests reqs [] -> 0 <= cache_size h <= 500).
Proof.
  cbn [health_check Cachetools.len fst snd cache_size].
  unfold Cachetools.expire.
  pose proof (length_filter_le (Cachetools.fresh now) cache) as Hlen.
  assert (Hok : cache_ok cache ->
                cache_ok (List.filter (Cachetools.fresh now) cache) /\
                0 <= Z.of_nat (length (List.filter (Cachetools.fresh now) cache)) <= 500).
  { intros [Hn Hl]. unfold cache_ok, CACHE_MAXSIZE in *.
    split; [split; [now apply keys_filter_NoDup | lia] | lia]. }
  split; [reflexivity|]. split.
  { apply List.Forall_forall. intros l Hl. now apply List.filter_In in Hl as [_ Hl]. }
  split.
  { intros l Hl. rewrite List.filter_In. tauto. }
  split; [lia|]. split; [exact Hok|].
  intros reqs ->. apply Hok. apply cache_ok_run.
  split; [constructor | cbn; unfold CACHE_MAXSIZE; lia].
Qed.

Lemma health_check_counts_fresh_links_witness :
  let cache := run_requests [(env_answering [biz_established], query_sushi None);
                             (env_between, query_pizza)] [] in
  cache_ok cache /\
  cache_size (fst (health_check 1300 cache)) = 2 /\
  cache_size (fst (health_check 1601 cache)) = 1 /\
  cache_size (fst (health_check 1701 cache)) = 0.
Proof.
  intros cache.
  destruct (health_check_counts_fresh_links 1300 cache) as (_ & _ & _ & _ & _ & Hr).
  pose proof (Hr _ eq_refl) as Hbound.
  split; [apply cache_ok_run; split; [constructor | cbn; unfold CACHE_MAXSIZE; lia]|].
  repeat split; vm_compute; reflexivity.
Defined.

Lemma getlink_filter_some {V : Type} (P : Cachetools.link V -> bool) k links l :
  Cachetools.getlink k links = Some l -> P l = true ->
  Cachetools.getlink k (List.filter P links) = Some l.
Proof.
  unfold Cachetools.getlink. induction links as [|l0 links IH]; [discriminate|].
  cbn [List.find List.filter].
  destruct (String.eqb (Cachetools.key l0) k) eqn:E.
  - intros [= ->] Hl. rewrite Hl. cbn. now rewrite E.
  - intros H Hl. destruct (P l0); [cbn; rewrite E|]; now apply IH.
Qed.

Lemma getlink_unique {V : Type} k (links : list (Cachetools.link V)) l y :
  List.NoDup (map Cachetools.key links) ->
  Cachetools.getlink k links = Some l -> In y links -> Cachetools.key y = k ->
  y = l.
Proof.
  unfold Cachetools.getlink. induction links as [|l0 links IH]; [intros _ _ []|].
  cbn [map List.find]. intros [Hl0 Hn]%List.NoDup_cons_iff.
  destruct (String.eqb_spec (Cachetools.key l0) k) as [E|E].
  - intros [= <-] [<-|Hy] Hk; [reflexivity|].
    exfalso. apply Hl0. apply in_map_iff. exists y. split; [congruence | exact Hy].
  - intros H [<-|Hy] Hk; [congruence|]. now apply IH.
Qed.

(** What a request returns when its price is accepted and the cache has no
    fresh link for its key: the cache plays no part in it. *)
Lemma miss_result (env : Env) (cache : Cache) (q : Query) :
  price_accepted (q_price q) = true ->
  Cachetools.contains (now_contains env) (cache_key q) cache = false ->
  result (get_top_places env cache q)
  = (snd (search_for (requests_get env) q) ≫= for_each score_business)
      ≫= (fun scored => Return (build_response q scored)) /\
  upstream_calls (get_top_places env cache q) = [params_of q].
Proof.
  intros Hp Hc. unfold get_top_places, search_for, params_of. rewrite Hp, Hc.
  cbn [negb]. unfold search_yelp. cbn [snd].
  destruct (_ ≫= for_each score_business) as [scored|e]; [|split; reflexivity].
  destruct (setitem_stores CACHE_MAXSIZE CACHE_TTL (now_setitem env) (cache_key q)
              (build_response q scored) cache) as (older & -> & _);
    [unfold CACHE_MAXSIZE; lia|].
  split; reflexivity.
Qed.

(** X16.  A health check does not change what a later request returns, nor
    whether it goes upstream: the links it drops are the ones that request
    would not have been served from. *)
Theorem health_check_is_transparent (now : float) (env : Env) (cache : Cache)
    (q : Query) :
  cache_ok cache ->
  PrimFloat.leb now (now_contains env) = true ->
  let cache' := snd (health_check now cache) in
  result (get_top_places env cache' q) = result (get_top_places env cache q) /\
  upstream_calls (get_top_places env cache' q)
  = upstream_calls (get_top_places env cache q).
Proof.
  intros [Hn _] Hle. cbn [health_check Cachetools.len snd]. unfold Cachetools.expire.
  set (cache' := List.filter (Cachetools.fresh now) cache).
  destruct (price_accepted (q_price q)) eqn:Hp;
    [|unfold get_top_places; rewrite Hp; split; reflexivity].
  assert (Hmiss : Cachetools.contains (now_contains env) (cache_key q) cache = false ->
                  Cachetools.contains (now_contains env) (cache_key q) cache' = false ->
                  result (get_top_places env cache' q) = result (get_top_places env cache q) /\
                  upstream_calls (get_top_places env cache' q)
                  = upstream_calls (get_top_places env cache q)).
  { intros H1 H2.
    destruct (miss_result env cache q Hp H1) as [-> ->].
    destruct (miss_result env cache' q Hp H2) as [-> ->]. split; reflexivity. }
  destruct (Cachetools.getlink (cache_key q) cache) as [l|] eqn:E.
  - destruct (Cachetools.fresh now l) eqn:Hf.
    + pose proof (getlink_filter_some (Cachetools.fresh now) _ _ _ E Hf) as E'.
      fold cache' in E'. unfold get_top_places. rewrite Hp. cbn [negb].
      unfold Cachetools.contains, Cachetools.getitem. rewrite E, E'.
      destruct (Cachetools.fresh (now_contains env) l); [split; reflexivity|].
      fold (search_for (requests_get env) q).
      destruct (search_for (requests_get env) q) as [calls fetched].
      destruct (fetched ≫= for_each score_business) as [scored|e]; [|split; reflexivity].
      destruct (setitem_stores CACHE_MAXSIZE CACHE_TTL (now_setitem env) (cache_key q)
                  (build_response q scored) cache) as (o1 & -> & _);
        [unfold CACHE_MAXSIZE; lia|].
      destruct (setitem_stores CACHE_MAXSIZE CACHE_TTL (now_setitem env) (cache_key q)
                  (build_response q scored) cache') as (o2 & -> & _);
        [unfold CACHE_MAXSIZE; lia|].
      split; reflexivity.
    + apply Hmiss.
      * unfold Cachetools.contains. rewrite E. unfold Cachetools.fresh in *.
        apply not_true_is_false. intros H.
        rewrite (float_leb_ltb_trans _ _ _ Hle H) in Hf. discriminate.
      * unfold Cachetools.contains.
        replace (Cachetools.getlink (cache_key q) cache') with
          (@None (Cachetools.link TopPlacesResponse)); [reflexivity|].
        symmetry. apply getlink_none. intros y Hy.
        apply List.filter_In in Hy as [Hy Hfy].
        apply String.eqb_neq. intros Hk.
        rewrite (getlink_unique _ _ _ _ Hn E Hy Hk) in Hfy. congruence.
  - apply Hmiss; unfold Cachetools.contains.
    + now rewrite E.
    + unfold cache'. now rewrite (getlink_filter_none _ _ _ E).
Qed.

Lemma health_check_is_transparent_witness :
  let cache := run_requests [(env_answering [biz_established], query_sushi None);
                             (env_between, query_pizza)] [] in
  cache_ok cache /\
  PrimFloat.leb 1200 (now_contains env_later) = true /\
  result (get_top_places env_later (snd (health_check 1200 cache)) (query_sushi None))
  = result (get_top_places env_later cache (query_sushi None)) /\
  upstream_calls (get_top_places env_later (snd (health_check 1200 cache))
                    (query_sushi None)) = [].
Proof.
  intros cache.
  assert (Hok : cache_ok cache).
  { apply cache_ok_run. split; [constructor | cbn; unfold CACHE_MAXSIZE; lia]. }
  destruct (health_check_is_transparent 1200 env_later cache (query_sushi None) Hok
              eq_refl) as [Hr Hu].
  split; [exact Hok|]. split; [reflexivity|]. split; [exact Hr|].
  rewrite Hu. vm_compute. reflexivity.
Defined.

Lemma slice_to_In {A : Type} (l : list A) (n : Z) (x : A) :
  In x (slice_to l n) -> In x l.
Proof.
  assert (Hfirst : forall k, In x (firstn k l) -> In x l).
  { intros k H. rewrite <- (firstn_skipn k l). apply in_or_app. now left. }
  unfold slice_to. destruct (0 <=? n); apply Hfirst.
Qed.

Lemma slice_to_length {A : Type} (l : list A) (n : Z) :
  (length (slice_to l n) <= length l)%nat.
Proof. unfold slice_to. destruct (0 <=? n); rewrite length_firstn; lia. Qed.

(** What a request is when it went upstream and returned a response. *)
Lemma fresh_response env cache q resp :
  let o := get_top_places env cache q in
  result o = Return resp -> upstream_calls o <> [] ->
  exists businesses scored,
    snd (search_for (requests_get env) q) = Return businesses /\
    for_each score_business businesses = Return scored /\
    resp = build_response q scored.
Proof.
  intros o Hr Hu.
  destruct (upstream_calls_when env cache q) as [_ Hiff]. fold o in Hiff.
  destruct (price_accepted (q_price q)) eqn:Hp; [|exfalso; apply Hu, Hiff; auto].
  destruct (Cachetools.contains (now_contains env) (cache_key q) cache) eqn:Hc;
    [exfalso; apply Hu, Hiff; auto|].
  destruct (miss_result env cache q Hp Hc) as [Hres _]. fold o in Hres.
  rewrite Hr in Hres.
  destruct (snd (search_for (requests_get env) q)) as [bs|]; [|discriminate].
  cbn [mbind py_bind] in Hres.
  destruct (for_each score_business bs) as [scored|] eqn:E; [|discriminate].
  injection Hres as ->. now exists bs, scored.
Qed.

(** X17.  A response computed from an upstream answer lists only businesses
    of that answer, each as [score_business] makes it, and no more of them
    than the answer has or the limit allows; its count is the number of
    results, and it carries the term and the center of the request and the
    attribution line. *)
Theorem response_comes_from_upstream (env : Env) (cache : Cache) (q : Query)
    (resp : TopPlacesResponse) :
  let o := get_top_places env cache q in
  result o = Return resp -> upstream_calls o <> [] ->
  exists businesses,
    snd (search_for (requests_get env) q) = Return businesses /\
    (forall r, In r (results resp) ->
       exists b, In b businesses /\ score_business b = Return r) /\
    (length (results resp) <= length businesses)%nat /\
    count resp = Z.of_nat (length (results resp)) /\
    (0 <= limit q -> count resp <= limit q) /\
    resp_term resp = term q /\
    center resp = {| center_lat := lat q; center_lng := lng q;
                     center_radius_m := radius_m q |} /\
    attribution resp = "Results powered by Yelp".
Proof.
  intros o Hr Hu.
  destruct (fresh_response env cache q resp Hr Hu) as (bs & scored & Hs & Hfor & ->).
  exists bs. split; [exact Hs|]. unfold build_response.
  cbn [results count resp_term center attribution].
  split.
  { intros r Hin%slice_to_In.
    apply (Permutation_in _ (sort_reverse_perm score scored)) in Hin.
    exact (for_each_In _ _ _ _ Hfor Hin). }
  split.
  { pose proof (slice_to_length (sort_reverse score scored) (limit q)) as H1.
    rewrite (Permutation_length (sort_reverse_perm score scored)) in H1.
    rewrite (for_each_length _ _ _ Hfor) in H1. exact H1. }
  split; [reflexivity|]. split; [|auto].
  intros Hlim. rewrite (slice_to_firstn _ _ Hlim), length_firstn. lia.
Qed.

Lemma response_comes_from_upstream_witness :
  let env := env_answering [biz_three_reviews; biz_established; biz_no_count] in
  let q := with_limit (query_sushi None) 2 in
  let o := get_top_places env [] q in
  exists resp,
    result o = Return resp /\ upstream_calls o = [params_of q] /\
    count resp = 2 /\ resp_term resp = "sushi" /\
    forall r, In r (results resp) ->
      exists b, In b [biz_three_reviews; biz_established; biz_no_count] /\
                score_business b = Return r.
Proof.
  intros env q o. eexists. split; [vm_compute; reflexivity|].
  split; [reflexivity|].
  assert (Hu : upstream_calls o <> []) by discriminate.
  destruct (response_comes_from_upstream env [] q _ eq_refl Hu)
    as (bs & Hs & Hin & _ & Hc & _ & Ht & _).
  split; [reflexivity|]. split; [exact Ht|].
  assert (E : Return bs = Return [biz_three_reviews; biz_established; biz_no_count])
    by (rewrite <- Hs; reflexivity).
  injection E as ->. exact Hin.
Defined.

(* ===================================================================== *)
(** ** The review count on its way to the scorer                           *)
(* ===================================================================== *)

Lemma score_business_scorer_fails biz e :
  calculate_bayesian_score (rating_of biz) (review_count_of biz) = Raise e ->
  score_business biz = Raise e.
Proof. intros H. unfold score_business. now rewrite H. Qed.

Lemma score_business_uses_scorer biz r :
  score_business biz = Return r ->
  review_count r = review_count_of biz /\
  exists s, calculate_bayesian_score (rating_of biz) (review_count_of biz) = Return s /\
            score r = round2 s.
Proof.
  unfold score_business.
  destruct (calculate_bayesian_score (rating_of biz) (review_count_of biz))
    as [s|e]; cbn; [|discriminate].
  destruct (match b_distance biz with
            | Some d => int_of_float d
            | None => Return 0
            end) as [d|e]; cbn; [|discriminate].
  intros [= <-]. cbn. eauto.
Qed.

(** C6, amended.  A missing review count is treated as zero and a present
    one is passed to the scorer unchanged, negative or not.  The loop body
    fails with the scorer's exception whenever the scorer fails at the
    record's own count, and a result that it builds carries that count and
    the scorer's value at it, rounded.  So does the handler: one business of
    the upstream answer at whose count the scorer fails ends the request,
    and a request that succeeds has scored each business at its own count.
    Whenever the count is missing or non-negative the denominator [v + m] is
    positive and the scorer returns a score. *)
Theorem review_count_defaulting (biz : Business) :
  (b_review_count biz = None -> review_count_of biz = 0) /\
  (forall n, b_review_count biz = Some n -> review_count_of biz = n) /\
  (0 <= review_count_of biz ->
   0 < review_count_of biz + DAMPING_FACTOR /\
   exists s, calculate_bayesian_score (rating_of biz) (review_count_of biz) = Return s) /\
  (forall e,
     calculate_bayesian_score (rating_of biz) (review_count_of biz) = Raise e ->
     score_business biz = Raise e) /\
  (forall r, score_business biz = Return r ->
     review_count r = review_count_of biz /\
     exists s,
       calculate_bayesian_score (rating_of biz) (review_count_of biz) = Return s /\
       score r = round2 s) /\
  (forall env cache q businesses,
     price_accepted (q_price q) = true ->
     Cachetools.contains (now_contains env) (cache_key q) cache = false ->
     snd (search_for (requests_get env) q) = Return businesses ->
     In biz businesses ->
     let o := get_top_places env cache q in
     (forall e,
        calculate_bayesian_score (rating_of biz) (review_count_of biz) = Raise e ->
        exists e', result o = Raise e') /\
     (forall resp, result o = Return resp ->
        exists r s,
          score_business biz = Return r /\
          calculate_bayesian_score (rating_of biz) (review_count_of biz) = Return s /\
          review_count r = review_count_of biz /\ score r = round2 s)).
Proof.
  split; [unfold review_count_of; now intros ->|].
  split; [unfold review_count_of; now intros n ->|].
  split.
  { intros Hv. split; [unfold DAMPING_FACTOR; lia|].
    eexists. now apply score_of_nonnegative_count. }
  split; [apply score_business_scorer_fails|].
  split; [apply score_business_uses_scorer|].
  intros env cache q businesses Hprice Hmiss Hup Hin o.
  destruct (miss_result env cache q Hprice Hmiss) as [Hres _].
  fold o in Hres. rewrite Hup in Hres. cbn in Hres.
  assert (Hfail : forall e, score_business biz = Raise e ->
                    exists e', result o = Raise e').
  { intros e He.
    destruct (for_each_failure score_business businesses biz e Hin He)
      as (b' & e' & _ & _ & Hall).
    exists e'. rewrite Hres, Hall. reflexivity. }
  split.
  - intros e He. apply (Hfail e). now apply score_business_scorer_fails.
  - intros resp Hresp.
    destruct (score_business biz) as [r|e] eqn:Hbiz.
    + destruct (score_business_uses_scorer biz r Hbiz) as (Hc & s & Hs & Hr).
      exists r, s. auto.
    + destruct (Hfail e eq_refl) as (e' & He'). congruence.
Qed.

Lemma review_count_defaulting_witness :
  review_count_of biz_no_count = 0 /\
  review_count_of biz_three_reviews = 3 /\
  0 < review_count_of biz_three_reviews + DAMPING_FACTOR /\
  score_business biz_negative_count = Raise ZeroDivisionError /\
  (exists r s,
     score_business biz_three_reviews = Return r /\
     calculate_bayesian_score (rating_of biz_three_reviews) 3 = Return s /\
     review_count r = 3 /\ score r = round2 s) /\
  (exists e,
     result (get_top_places (env_answering [biz_three_reviews; biz_negative_count])
               [] (query_sushi None)) = Raise e).
Proof.
  destruct (review_count_defaulting biz_no_count) as (Hnone & _).
  destruct (review_count_defaulting biz_three_reviews)
    as (_ & Hsome & Hpos & _ & _ & Hreq).
  destruct (review_count_defaulting biz_negative_count)
    as (_ & _ & _ & Hraise & _ & Hreq').
  split; [exact (Hnone eq_refl)|].
  split; [exact (Hsome 3 eq_refl)|].
  assert (Hv : 0 <= review_count_of biz_three_reviews) by (cbv; discriminate).
  split; [exact (proj1 (Hpos Hv))|].
  split; [exact (Hraise ZeroDivisionError eq_refl)|].
  split.
  - destruct (Hreq (env_answering [biz_three_reviews]) [] (query_sushi None)
                [biz_three_reviews] eq_refl eq_refl eq_refl (or_introl eq_refl))
      as [_ Hok].
    destruct (result (get_top_places (env_answering [biz_three_reviews]) []
                        (query_sushi None))) as [resp|e] eqn:Hres;
      [|vm_compute in Hres; discriminate].
    exact (Hok resp eq_refl).
  - destruct (Hreq' (env_answering [biz_three_reviews; biz_negative_count]) []
                (query_sushi None) [biz_three_reviews; biz_negative_count]
                eq_refl eq_refl eq_refl (or_intror (or_introl eq_refl)))
      as [Hbad _].
    exact (Hbad ZeroDivisionError eq_refl).
Defined.

(* ===================================================================== *)
(** ** The console                                                         *)
(* ===================================================================== *)

Import Console.

(** With a default that counts as true, [get_input] gives the default on a
    blank line and on text that [type_func] refuses, and what [type_func]
    makes of the text otherwise. *)
Lemma get_input_with_default {A : Type} line (d : A) type_func truthy_of :
  truthy_of d = true ->
  get_input line (Some d) type_func truthy_of
  = Some (if str_truthy (strip line) then default d (type_func (strip line))
          else d).
Proof.
  intros Hd. unfold get_input.
  destruct (strip line) as [|c s]; [reflexivity|]. cbn [str_truthy].
  destruct (type_func (String c s)); [reflexivity|]. now rewrite Hd.
Qed.

Lemma get_text_with_default line d :
  get_text line (Some d)
  = Some (if str_truthy (strip line) then strip line else d).
Proof.
  unfold get_text, get_input. now destruct (strip line).
Qed.

(** X18.  The console always sends a request, and never one with an empty
    term or a missing number: a blank term becomes "shawarma", a blank or
    unreadable number becomes its default, and a price is sent only when one
    was typed.  The "Search term is required!" exit is never taken, and the
    open-now answer is always a string when [lower] is called on it. *)
Theorem console_always_sends_a_term (to_float : string -> option float)
    (to_int : string -> option Z) (lines : Lines) :
  exists ps,
    search_params to_float to_int lines = Some ps /\
    params_term ps <> "" /\
    (blank (line_term lines) -> params_term ps = "shawarma") /\
    (~ blank (line_term lines) -> params_term ps = strip (line_term lines)) /\
    params_lat ps = Some (if str_truthy (strip (line_lat lines))
                          then default 45.4215%float (to_float (strip (line_lat lines)))
                          else 45.4215%float) /\
    params_lng ps = Some (if str_truthy (strip (line_lng lines))
                          then default (-75.6972)%float (to_float (strip (line_lng lines)))
                          else (-75.6972)%float) /\
    params_radius_m ps = Some (if str_truthy (strip (line_radius lines))
                               then default 5000 (to_int (strip (line_radius lines)))
                               else 5000) /\
    params_limit ps = Some (if str_truthy (strip (line_limit lines))
                            then default 10 (to_int (strip (line_limit lines)))
                            else 10) /\
    get_text (line_open_now lines) (Some "n") <> None /\
    (blank (line_open_now lines) -> params_open_now ps = false) /\
    (params_price ps = None <-> blank (line_price lines)).
Proof.
  unfold search_params, blank. rewrite !get_text_with_default.
  rewrite !get_input_with_default by reflexivity.
  destruct (strip (line_term lines)) as [|c t] eqn:Et; cbn [str_truthy];
    (eexists; split; [reflexivity|]; cbn [params_term params_lat params_lng
       params_radius_m params_limit params_open_now params_price];
     split; [discriminate|];
     split; [intros; congruence || reflexivity|];
     split; [intros; congruence || reflexivity|];
     do 4 (split; [reflexivity|]);
     split; [discriminate|];
     split; [intros ->; reflexivity|];
     destruct (strip (line_price lines)); cbn; split; congruence).
Qed.

Lemma console_always_sends_a_term_witness :
  search_params to_float_sample to_int_sample lines_typed
  = Some {| params_term := "shawarma"; params_lat := Some 45.5%float;
            params_lng := Some (-75.6972)%float; params_radius_m := Some 5000;
            params_limit := Some 10; params_open_now := true;
            params_price := Some "1,2" |} /\
  blank (line_term lines_typed) /\ ~ blank (line_price lines_typed).
Proof.
  destruct (console_always_sends_a_term to_float_sample to_int_sample lines_typed)
    as (ps & Hps & _).
  split; [|split; [reflexivity | discriminate]].
  rewrite Hps. f_equal.
  assert (E : Some ps = search_params to_float_sample to_int_sample lines_typed)
    by (symmetry; exact Hps).
  vm_compute in E. now injection E as ->.
Defined.
